(** * node-hid: a shallow embedding of [src/HID.cc]

    [HID.cc] binds the hidapi C library to JavaScript through V8 and NAN.
    Three things lie outside the file and are kept abstract here:

    - hidapi itself ([hid_write], [hid_read], ...): class [hidapi] gives the
      value each native call returns, and every call is appended to the
      [trace] of the world, so that "the native layer is (not) reached" is a
      statement about the trace;
    - the JavaScript engine: [engine_ToNumber] converts strings and objects
      to numbers, JavaScript callbacks are opaque and their invocations are
      recorded in [calls];
    - the C++ run time: storage that was never written, or that lies past
      the end of an array, holds [indeterminate] bytes.

    An access past the end of a [new[]] array does not stop the program: a
    store leaves the array as it is (the byte lands in what follows the
    array, where the model does not follow it), and a load finds an
    [indeterminate] byte.  What does stop the program is a second
    [delete[]] of the same array, an allocation that fails, and a C++
    exception that nobody catches.

    Two ways of failing appear in the source and must not be confused:

    - [throw JSException(...)] is a C++ exception: control leaves the
      enclosing statements until a [catch] is found ([Throw] below);
    - [NanThrowError(...)] is an ordinary call: it schedules a JavaScript
      exception on the isolate and comes back to its caller.  The source
      shows it: [JSException::throwAsV8Exception] (line 51) is a [void]
      member whose body is this call alone, and its callers go on with
      [NanReturnUndefined()] (lines 361-362, 376-377) or with the rest of
      the method (lines 460-464).  The scheduled exception is raised in
      JavaScript once the method has returned ([invoke] below). *)

From Stdlib Require Import ZArith QArith Lia Ascii HexString.
From stdpp Require Import base option list strings.

Local Close Scope Q_scope.
Local Open Scope Z_scope.

(** ** Machine integers *)

(** [(unsigned char) z], also the conversion to [uint8_t]. *)
Definition uchar (z : Z) : Z := z mod 256.

(** Conversion to [int] / [int32_t]: wrap-around to the signed 32-bit range. *)
Definition int32 (z : Z) : Z := (z + 2 ^ 31) mod 2 ^ 32 - 2 ^ 31.

(** Conversion to [uint32_t]. *)
Definition uint32 (z : Z) : Z := z mod 2 ^ 32.

(** Conversion to [unsigned short]. *)
Definition ushort (z : Z) : Z := z mod 65536.

(** ** JavaScript values *)

(** A JavaScript number.  Every finite double is a rational; the doubles are
    a subset of what [Finite] can hold, which is harmless for statements
    quantified over all numbers. *)
Inductive Number : Type :=
| Finite (q : Q)
| NaN
| Infinity (negative : bool).

Definition Integer (z : Z) : Number := Finite (inject_Z z).

#[warnings="-register-all"]
Inductive JSValue : Type :=
| JSUndefined
| JSNull
| JSBoolean (b : bool)
| JSNumber (n : Number)
| JSString (s : string)
| JSFunction (f : nat)
| JSArray (elems : list JSValue)
| JSBuffer (data : list Z)
| JSError (msg : string)
| JSObject (props : list (string * JSValue)).

(** Rounding towards zero, the first step of ECMAScript's ToInt32/ToUint32. *)
Definition truncate (q : Q) : Z := Z.quot (Qnum q) (Z.pos (Qden q)).

Definition ToInt32 (n : Number) : Z :=
  match n with
  | Finite q => int32 (truncate q)
  | _ => 0
  end.

Definition ToUint32 (n : Number) : Z :=
  match n with
  | Finite q => uint32 (truncate q)
  | _ => 0
  end.

(** What the binding takes from its host: the engine and the C++ run time. *)
Class Host := {
  (** ECMAScript ToNumber on strings, functions and objects *)
  engine_ToNumber : JSValue -> Number;
  (** the byte found at offset [i] of storage that was never written, or
      at offset [i] from the start of an array that ends before it *)
  indeterminate : nat -> Z
}.

Section Values.
Context {host : Host}.

Definition ToNumber (v : JSValue) : Number :=
  match v with
  | JSUndefined => NaN
  | JSNull => Integer 0
  | JSBoolean b => Integer (if b then 1 else 0)
  | JSNumber n => n
  | _ => engine_ToNumber v
  end.

(** [v->Int32Value()] *)
Definition Int32Value (v : JSValue) : Z := ToInt32 (ToNumber v).

(** [v->ToUint32()->Value()] *)
Definition Uint32Value (v : JSValue) : Z := ToUint32 (ToNumber v).

(** Contents of fresh storage of [n] bytes. *)
Definition fresh (n : nat) : list Z := (fun i => uchar (indeterminate i)) <$> seq 0 n.
End Values.

Definition IsNumber (v : JSValue) : bool :=
  match v with JSNumber _ => true | _ => false end.

Definition IsFunction (v : JSValue) : bool :=
  match v with JSFunction _ => true | _ => false end.

(** [args[i]]: V8 answers [undefined] beyond [args.Length()]. *)
Definition arg (args : list JSValue) (i : nat) : JSValue :=
  default JSUndefined (args !! i).

(** [object->Set(key, value)] on own data properties, in insertion order. *)
Fixpoint Set_ (key : string) (value : JSValue) (props : list (string * JSValue))
  : list (string * JSValue) :=
  match props with
  | [] => [(key, value)]
  | (k, v) :: rest =>
      if String.eqb k key then (k, value) :: rest else (k, v) :: Set_ key value rest
  end.

(** [object->Get(key)]; [None] when the property is absent. *)
Fixpoint Get (key : string) (props : list (string * JSValue)) : option JSValue :=
  match props with
  | [] => None
  | (k, v) :: rest => if String.eqb k key then Some v else Get key rest
  end.

(** ** hidapi *)

(** A non-null [hid_device*]. *)
Definition hid_device := positive.

(** [struct hid_device_info]; a null string pointer is [None].  A
    [wchar_t*] is the list of the wide characters before its terminator. *)
Record hid_device_info := {
  path : option string;
  vendor_id : Z;
  product_id : Z;
  serial_number : option (list Z);
  release_number : Z;
  manufacturer_string : option (list Z);
  product_string : option (list Z);
  usage_page : Z;
  usage : Z;
  interface_number : Z
}.

(** The calls made into hidapi, with the arguments they were given; a
    buffer argument is recorded by the bytes the callee finds in it. *)
Inductive NativeCall : Type :=
| call_hid_close (h : hid_device)
| call_hid_set_nonblocking (h : option hid_device) (nonblock : Z)
| call_hid_write (h : option hid_device) (data : list Z) (length : Z)
| call_hid_read (h : option hid_device) (length : Z)
| call_hid_get_feature_report (h : option hid_device) (data : list Z) (length : Z)
| call_hid_send_feature_report (h : option hid_device) (data : list Z) (length : Z)
| call_hid_enumerate (vendor product : Z)
| call_hid_free_enumeration.

(** What the native library answers.  Each answer may depend on the calls
    made so far.  A call that fills a buffer answers with its return value
    and the bytes it stored from the start of the buffer. *)
Class hidapi := {
  hid_set_nonblocking_result : list NativeCall -> option hid_device -> Z -> Z;
  hid_write_result : list NativeCall -> option hid_device -> list Z -> Z -> Z;
  hid_read_result : list NativeCall -> option hid_device -> Z -> Z * list Z;
  hid_get_feature_report_result :
    list NativeCall -> option hid_device -> list Z -> Z -> Z * list Z;
  hid_send_feature_report_result :
    list NativeCall -> option hid_device -> list Z -> Z -> Z;
  (** the devices attached when the enumeration is taken *)
  attached : list NativeCall -> list hid_device_info
}.

(** ** The world *)

(** [class JSException]. *)
Record JSException := mkJSException { _message : string }.

Definition message (e : JSException) : string := _message e.

(** [struct ReceiveIOCB]; [_hid] is the receiver, the one handle of the world. *)
Record ReceiveIOCB := mkReceiveIOCB {
  _callback : JSValue;
  _error : option JSException;
  _data : list Z
}.

Record World := mkWorld {
  (** [HID::_hidHandle]; [None] is the null pointer *)
  _hidHandle : option hid_device;
  (** [ObjectWrap] reference count of the handle object *)
  refs : nat;
  (** the exception scheduled on the isolate, if any *)
  scheduled : option string;
  (** calls into hidapi, oldest first *)
  trace : list NativeCall;
  (** [new[]] storage: the block behind each pointer, [None] once deleted *)
  heap : list (option (list Z));
  (** requests handed to [uv_queue_work], oldest first *)
  work : list ReceiveIOCB;
  (** invocations of JavaScript callbacks with their arguments, oldest first *)
  calls : list (JSValue * list JSValue)
}.

Definition set_hidHandle (h : option hid_device) (w : World) : World :=
  mkWorld h (refs w) (scheduled w) (trace w) (heap w) (work w) (calls w).
Definition set_refs (n : nat) (w : World) : World :=
  mkWorld (_hidHandle w) n (scheduled w) (trace w) (heap w) (work w) (calls w).
Definition set_scheduled (e : option string) (w : World) : World :=
  mkWorld (_hidHandle w) (refs w) e (trace w) (heap w) (work w) (calls w).
Definition set_trace (t : list NativeCall) (w : World) : World :=
  mkWorld (_hidHandle w) (refs w) (scheduled w) t (heap w) (work w) (calls w).
Definition set_heap (m : list (option (list Z))) (w : World) : World :=
  mkWorld (_hidHandle w) (refs w) (scheduled w) (trace w) m (work w) (calls w).
Definition set_work (q : list ReceiveIOCB) (w : World) : World :=
  mkWorld (_hidHandle w) (refs w) (scheduled w) (trace w) (heap w) q (calls w).
Definition set_calls (c : list (JSValue * list JSValue)) (w : World) : World :=
  mkWorld (_hidHandle w) (refs w) (scheduled w) (trace w) (heap w) (work w) c.

(** Ways of leaving defined behaviour. *)
Inductive Fault : Type :=
| OutOfBounds           (* more bytes taken from an array of automatic storage than it holds *)
| DoubleFree            (* [delete[]] of storage already deleted *)
| UseAfterFree          (* access to deleted storage *)
| BadAlloc              (* [new[]] of a negative size *)
| BadCast               (* [Local<T>::Cast] of a value that is no [T], then used *)
| Terminate (what : string). (* a C++ exception nobody catches *)

(** ** A state monad with C++ exceptions and faults *)

Inductive Result (A : Type) : Type :=
| Ok (a : A) (w : World)
| Throw (e : JSException) (w : World)
| Abort (f : Fault) (w : World).

Arguments Ok {A} a w.
Arguments Throw {A} e w.
Arguments Abort {A} f w.

Definition M (A : Type) : Type := World -> Result A.

Definition ret {A} (a : A) : M A := fun w => Ok a w.

Definition bind {A B} (m : M A) (k : A -> M B) : M B :=
  fun w =>
    match m w with
    | Ok a w' => k a w'
    | Throw e w' => Throw e w'
    | Abort f w' => Abort f w'
    end.

Declare Scope hid_scope.
Delimit Scope hid_scope with hid.
Notation "x <- c1 ;; c2" := (bind c1 (fun x => c2))
  (at level 100, c1 at next level, right associativity) : hid_scope.
Notation "c1 ;; c2" := (bind c1 (fun _ => c2))
  (at level 100, right associativity) : hid_scope.
Local Open Scope hid_scope.

(** [throw e;] *)
Definition throw {A} (e : JSException) : M A := fun w => Throw e w.

Definition abort {A} (f : Fault) : M A := fun w => Abort f w.

(** [try { body } catch (const JSException& e) { handler }] *)
Definition try_catch {A} (body : M A) (handler : JSException -> M A) : M A :=
  fun w =>
    match body w with
    | Throw e w' => handler e w'
    | r => r
    end.

(** [if (c) { m }] *)
Definition when (c : bool) (m : M unit) : M unit := if c then m else ret tt.

Definition gets {A} (f : World -> A) : M A := fun w => Ok (f w) w.

Definition modify (f : World -> World) : M unit := fun w => Ok tt (f w).

(** [NanThrowError(msg)]: schedule the exception and come back.  A later
    call replaces an exception scheduled earlier. *)
Definition NanThrowError (msg : string) : M unit := modify (set_scheduled (Some msg)).

(** [JSException::throwAsV8Exception] *)
Definition throwAsV8Exception (e : JSException) : M unit := NanThrowError (message e).

(** ** Storage *)

Section Storage.
Context {host : Host}.

(** [new unsigned char[n]] *)
Definition new_array (n : Z) : M nat :=
  fun w =>
    if n <? 0 then Abort BadAlloc w
    else Ok (length (heap w)) (set_heap (heap w ++ [Some (fresh (Z.to_nat n))]) w).

(** [p[i] = v].  Past the end of the array the array itself is left as it
    is (the list update does nothing there) and the program goes on. *)
Definition store (p i : nat) (v : Z) : M unit :=
  fun w =>
    match heap w !! p with
    | Some (Some block) =>
        Ok tt (set_heap (<[p := Some (<[i := v]> block)]> (heap w)) w)
    | _ => Abort UseAfterFree w
    end.

(** [p[i]].  Past the end of the array the byte is not one of the array's,
    and the program goes on with it. *)
Definition load (p i : nat) : M Z :=
  fun w =>
    match heap w !! p with
    | Some (Some block) =>
        match block !! i with
        | Some v => Ok v w
        | None => Ok (uchar (indeterminate i)) w
        end
    | _ => Abort UseAfterFree w
    end.

(** The bytes a callee finds behind [p]. *)
Definition contents (p : nat) : M (list Z) :=
  fun w =>
    match heap w !! p with
    | Some (Some block) => Ok block w
    | _ => Abort UseAfterFree w
    end.

(** [written] stored from the start of [block], within its bounds. *)
Definition overwrite (block written : list Z) : list Z :=
  take (length block) (written ++ drop (length written) block).

(** A callee stores [written] from the start of the block behind [p]. *)
Definition fill (p : nat) (written : list Z) : M unit :=
  fun w =>
    match heap w !! p with
    | Some (Some block) =>
        Ok tt (set_heap (<[p := Some (overwrite block written)]> (heap w)) w)
    | _ => Abort UseAfterFree w
    end.

(** [delete[] p] *)
Definition delete_array (p : nat) : M unit :=
  fun w =>
    match heap w !! p with
    | Some (Some _) => Ok tt (set_heap (<[p := None]> (heap w)) w)
    | _ => Abort DoubleFree w
    end.

(** [for (i = message.begin(); i != message.end(); i++) *p++ = *i;]
    with [p] at offset [j] of the block. *)
Fixpoint copy_out (p j : nat) (message : list Z) : M unit :=
  match message with
  | [] => ret tt
  | b :: rest => store p j b ;; copy_out p (S j) rest
  end.

(** [for (i = ...; i < ...; i++) ... p[i] ...]: the [n] bytes from offset [i]. *)
Fixpoint load_from (p i n : nat) : M (list Z) :=
  match n with
  | O => ret []
  | S n' => b <- load p i ;; rest <- load_from p (S i) n' ;; ret (b :: rest)
  end.
End Storage.

(** ** Calls into hidapi *)

Section Native.
Context {api : hidapi}.

Definition record (c : NativeCall) (w : World) : World := set_trace (trace w ++ [c]) w.

(** [hid_close(h)] *)
Definition hid_close (h : hid_device) : M unit := modify (record (call_hid_close h)).

(** [hid_set_nonblocking(_hidHandle, nonblock)] *)
Definition hid_set_nonblocking (nonblock : Z) : M Z :=
  fun w =>
    Ok (hid_set_nonblocking_result (trace w) (_hidHandle w) nonblock)
       (record (call_hid_set_nonblocking (_hidHandle w) nonblock) w).

(** [hid_write(_hidHandle, buf, length)] *)
Definition hid_write (buf : nat) (length : Z) : M Z :=
  data <- contents buf ;;
  fun w =>
    Ok (hid_write_result (trace w) (_hidHandle w) data length)
       (record (call_hid_write (_hidHandle w) data length) w).

(** [hid_send_feature_report(_hidHandle, buf, length)] *)
Definition hid_send_feature_report (buf : nat) (length : Z) : M Z :=
  data <- contents buf ;;
  fun w =>
    Ok (hid_send_feature_report_result (trace w) (_hidHandle w) data length)
       (record (call_hid_send_feature_report (_hidHandle w) data length) w).

(** [hid_get_feature_report(_hidHandle, buf, length)]: the callee reads
    the report id from the buffer and stores the report into it. *)
Definition hid_get_feature_report (buf : nat) (length : Z) : M Z :=
  data <- contents buf ;;
  answer <- (fun w =>
    Ok (hid_get_feature_report_result (trace w) (_hidHandle w) data length)
       (record (call_hid_get_feature_report (_hidHandle w) data length) w)) ;;
  fill buf (snd answer) ;;
  ret (fst answer).

(** [hid_read(_hidHandle, buf, length)] on a buffer of automatic storage,
    passed and handed back by value. *)
Definition hid_read (buf : list Z) (length : Z) : M (Z * list Z) :=
  fun w =>
    let answer := hid_read_result (trace w) (_hidHandle w) length in
    Ok (fst answer, overwrite buf (snd answer))
       (record (call_hid_read (_hidHandle w) length) w).

(** Modelled from the spec: the filter of [hid_enumerate], which belongs
    to hidapi and is not under src/.  Section 4.4: zero filters means 'all
    devices'; non-zero values filter by exact match on vendor/product id. *)
Definition matches (vendor product : Z) (dev : hid_device_info) : bool :=
  ((vendor =? 0) || (vendor_id dev =? vendor)) &&
  ((product =? 0) || (product_id dev =? product)).

(** Modelled from the spec: [hid_enumerate(vendor, product)] answers with
    the attached devices that pass the filter, in the order of the [next]
    links. *)
Definition hid_enumerate (vendor product : Z) : M (list hid_device_info) :=
  fun w =>
    Ok (filter (fun dev => matches vendor product dev = true) (attached (trace w)))
       (record (call_hid_enumerate vendor product) w).

(** [hid_free_enumeration(devs)] *)
Definition hid_free_enumeration : M unit := modify (record call_hid_free_enumeration).
End Native.

(** ** [class HID] *)

Module HID.
Section Members.
Context {host : Host} {api : hidapi}.

(** [HID::close()], lines 138-145. *)
Definition close : M unit :=
  h <- gets _hidHandle ;;
  match h with
  | Some dev => hid_close dev ;; modify (set_hidHandle None)
  | None => ret tt
  end.

(** [HID::setNonBlocking(int)], lines 147-156. *)
Definition setNonBlocking (message : Z) : M unit :=
  res <- hid_set_nonblocking message ;;
  if res <? 0 then throw (mkJSException "Error setting non-blocking mode.")
  else ret tt.

(** [HID::write(const databuf_t&)], lines 158-174. *)
Definition write (message : list Z) : M unit :=
  buf <- new_array (Z.of_nat (length message)) ;;
  copy_out buf 0 message ;;
  res <- hid_write buf (Z.of_nat (length message)) ;;
  delete_array buf ;;
  if res <? 0 then throw (mkJSException "Cannot write to HID device")
  else ret tt.

(** [sizeof buf] in [recvAsync]. *)
Definition READ_BUFFER_SIZE : nat := 1024.

(** [HID::recvAsync], lines 176-189: the work done on the worker thread. *)
Definition recvAsync (iocb : ReceiveIOCB) : M ReceiveIOCB :=
  let buf := fresh READ_BUFFER_SIZE in
  answer <- hid_read buf (Z.of_nat READ_BUFFER_SIZE) ;;
  let len := fst answer in
  let buf := snd answer in
  if len <? 0 then
    ret (mkReceiveIOCB (_callback iocb)
           (Some (mkJSException "could not read from HID device")) (_data iocb))
  else if Z.of_nat (length buf) <? len then abort OutOfBounds
  else ret (mkReceiveIOCB (_callback iocb) (_error iocb) (take (Z.to_nat len) buf)).

(** [HID::readResultsToJSCallbackArguments], lines 191-212.  The node
    [Buffer] is made of [message.size()] bytes and filled byte by byte. *)
Definition readResultsToJSCallbackArguments
    (iocb : ReceiveIOCB) (argv : list JSValue) : list JSValue :=
  match _error iocb with
  | Some e => <[0%nat := JSError (message e)]> argv
  | None => <[1%nat := JSBuffer (_data iocb)]> argv
  end.

Definition Ref : M unit := modify (fun w => set_refs (S (refs w)) w).
Definition Unref : M unit := modify (fun w => set_refs (pred (refs w)) w).

(** [callback->Call(argc, argv)]: the callback is JavaScript and opaque;
    the invocation is recorded.  Calling what is no function is a fault. *)
Definition Call (callback : JSValue) (argv : list JSValue) : M unit :=
  if IsFunction callback
  then modify (fun w => set_calls (calls w ++ [(callback, argv)]) w)
  else abort BadCast.

(** [HID::recvAsyncDone], lines 214-237: back on the owning context. *)
Definition recvAsyncDone (iocb : ReceiveIOCB) : M unit :=
  let argv := [JSUndefined; JSUndefined] in
  let argv := readResultsToJSCallbackArguments iocb argv in
  Unref ;;
  Call (_callback iocb) argv.

(** [uv_queue_work(uv_default_loop(), req, recvAsync, recvAsyncDone)] *)
Definition uv_queue_work (iocb : ReceiveIOCB) : M unit :=
  modify (fun w => set_work (work w ++ [iocb]) w).

(** One turn of the loop on the oldest request: the worker runs
    [recvAsync], then the owning context runs [recvAsyncDone], after
    which the request is gone.  This is the course of one read with
    nothing done to the handle between its submission and its completion;
    the worker threads of several reads in flight, or a call made while a
    read is in flight, are not followed. *)
Definition uv_run_once : M unit :=
  q <- gets work ;;
  match q with
  | [] => ret tt
  | iocb :: rest =>
      modify (set_work rest) ;;
      iocb' <- recvAsync iocb ;;
      recvAsyncDone iocb'
  end.

(** [Local<Array>::Cast(v)] followed by [Length()] and [Get(i)]: the
    elements when [v] is an array, no defined behaviour otherwise. *)
Definition Array_Cast (v : JSValue) : M (list JSValue) :=
  match v with
  | JSArray elems => ret elems
  | _ => abort BadCast
  end.

(** Lines 412-419, and again 301-308:
    [for (i = 0; i < messageArray->Length(); i++) {
       if (!messageArray->Get(i)->IsNumber()) throw JSException(...);
       message.push_back((unsigned char) messageArray->Get(i)->Int32Value()); }] *)
Fixpoint collect (messageArray : list JSValue) : M (list Z) :=
  match messageArray with
  | [] => ret []
  | v :: rest =>
      if negb (IsNumber v) then
        throw (mkJSException
                 "unexpected array element in array to send, expecting only integers")
      else
        message <- collect rest ;;
        ret (uchar (Int32Value v) :: message)
  end.

(** [NAN_METHOD(HID::read)], lines 239-256. *)
Definition NAN_METHOD_read (args : list JSValue) : M JSValue :=
  when (negb (length args =? 1)%nat || negb (IsFunction (arg args 0)))
       (NanThrowError "need one callback function argument in read") ;;
  Ref ;;
  uv_queue_work (mkReceiveIOCB (arg args 0) None []) ;;
  ret JSUndefined.

(** [NAN_METHOD(HID::getFeatureReport)], lines 258-287. *)
Definition NAN_METHOD_getFeatureReport (args : list JSValue) : M JSValue :=
  when (negb (length args =? 2)%nat || (Uint32Value (arg args 1) =? 0))
       (NanThrowError "need report ID and non-zero length parameter in getFeatureReport") ;;
  let reportId := uchar (Uint32Value (arg args 0)) in
  let bufSize := int32 (Uint32Value (arg args 1)) in
  buf <- new_array bufSize ;;
  store buf 0 reportId ;;
  returnedLength <- hid_get_feature_report buf bufSize ;;
  when (returnedLength =? -1)
       (delete_array buf ;;
        NanThrowError "could not get feature report from device") ;;
  retval <- load_from buf 0 (Z.to_nat returnedLength) ;;
  delete_array buf ;;
  ret (JSArray ((fun b => JSNumber (Integer b)) <$> retval)).

(** [NAN_METHOD(HID::sendFeatureReport)], lines 290-325.  The [throw] of
    the loop has no [catch] around it. *)
Definition NAN_METHOD_sendFeatureReport (args : list JSValue) : M JSValue :=
  when (negb (length args =? 1)%nat)
       (NanThrowError "need report (including id in first byte) only in sendFeatureReport") ;;
  messageArray <- Array_Cast (arg args 0) ;;
  message <- collect messageArray ;;
  buf <- new_array (Z.of_nat (length message)) ;;
  copy_out buf 0 message ;;
  returnedLength <- hid_send_feature_report buf (Z.of_nat (length message)) ;;
  delete_array buf ;;
  when (returnedLength =? -1)
       (NanThrowError "could not send feature report to device") ;;
  ret (JSNumber (Integer returnedLength)).

(** [NAN_METHOD(HID::close)], lines 366-379. *)
Definition NAN_METHOD_close (args : list JSValue) : M JSValue :=
  try_catch (close ;; ret JSUndefined)
            (fun e => throwAsV8Exception e ;; ret JSUndefined).

(** [NAN_METHOD(HID::setNonBlocking)], lines 381-399. *)
Definition NAN_METHOD_setNonBlocking (args : list JSValue) : M JSValue :=
  when (negb (length args =? 1)%nat)
       (NanThrowError "Expecting a 1 to enable, 0 to disable as the first argument.") ;;
  let blockStatus := Int32Value (arg args 0) in
  try_catch (setNonBlocking blockStatus ;; ret JSUndefined)
            (fun e => throwAsV8Exception e ;; ret JSUndefined).

(** [NAN_METHOD(HID::write)], lines 401-428. *)
Definition NAN_METHOD_write (args : list JSValue) : M JSValue :=
  when (negb (length args =? 1)%nat)
       (NanThrowError "HID write requires one argument") ;;
  try_catch (messageArray <- Array_Cast (arg args 0) ;;
             message <- collect messageArray ;;
             write message ;;
             ret JSUndefined)
            (fun e => throwAsV8Exception e ;; ret JSUndefined).

(** The conversion of a [wchar_t] to [char]: its low byte. *)
Definition to_char (c : Z) : ascii := ascii_of_N (Z.to_N (c mod 256)).

(** [os.narrow(c, dfault)].  [os] is an [ostringstream], a stream of
    [char]: its [narrow] takes a [char], and the facet of a [char] stream
    narrows a [char] to itself, so that [dfault] is never the answer. *)
Definition os_narrow (c : ascii) (dfault : ascii) : ascii := c.

(** [narrow(wchar_t* wide)], lines 430-439.  The wide character [ws[i]]
    is converted to the [char] that [os.narrow] takes. *)
Fixpoint narrow (wide : list Z) : string :=
  match wide with
  | [] => EmptyString
  | c :: ws => String (os_narrow (to_char c) "?"%char) (narrow ws)
  end.

(** [s.c_str()] read as a C string: the characters before the first NUL. *)
Fixpoint c_str (s : string) : string :=
  match s with
  | EmptyString => EmptyString
  | String c rest => if Ascii.eqb c zero then EmptyString else String c (c_str rest)
  end.

(** [if (p) { deviceInfo->Set(key, value(p)); }] *)
Definition Set_if_present {A} (key : string) (p : option A) (value : A -> JSValue)
    (props : list (string * JSValue)) : list (string * JSValue) :=
  match p with
  | Some x => Set_ key (value x) props
  | None => props
  end.

(** The body of the loop of [HID::devices], lines 468-486. *)
Definition deviceInfo (dev : hid_device_info) : list (string * JSValue) :=
  let o := [] in
  let o := Set_ "vendorId" (JSNumber (Integer (vendor_id dev))) o in
  let o := Set_ "productId" (JSNumber (Integer (product_id dev))) o in
  let o := Set_if_present "path" (path dev) JSString o in
  let o := Set_if_present "serialNumber" (serial_number dev)
             (fun s => JSString (c_str (narrow s))) o in
  let o := Set_if_present "manufacturer" (manufacturer_string dev)
             (fun s => JSString (c_str (narrow s))) o in
  let o := Set_if_present "product" (product_string dev)
             (fun s => JSString (c_str (narrow s))) o in
  let o := Set_ "release" (JSNumber (Integer (release_number dev))) o in
  let o := Set_ "interface" (JSNumber (Integer (interface_number dev))) o in
  let o := Set_ "usagePage" (JSNumber (Integer (usage_page dev))) o in
  let o := Set_ "usage" (JSNumber (Integer (usage dev))) o in
  o.

(** [NAN_METHOD(HID::devices)], lines 441-491.  The two [int]s are
    converted at the call of line 464 to the [unsigned short] ids that
    hidapi takes, the ids of the constructor (line 73). *)
Definition NAN_METHOD_devices (args : list JSValue) : M JSValue :=
  ids <- try_catch
           (match length args with
            | 0%nat => ret (0, 0)
            | 2%nat => ret (Int32Value (arg args 0), Int32Value (arg args 1))
            | _ => throw (mkJSException
                 "unexpected number of arguments to HID.devices() call, expecting either no arguments or vendor and product ID")
            end)
           (fun e => throwAsV8Exception e ;; ret (0, 0)) ;;
  devs <- hid_enumerate (ushort (fst ids)) (ushort (snd ids)) ;;
  let retval := (fun dev => JSObject (deviceInfo dev)) <$> devs in
  hid_free_enumeration ;;
  ret (JSArray retval).
End Members.
End HID.

(** ** Calling a method from JavaScript *)

(** How a call ends, as its JavaScript caller sees it. *)
Inductive Completion : Type :=
| Returned (v : JSValue)     (* the call gives a value *)
| Raised (msg : string)      (* the call raises [Error(msg)] *)
| Crashed (f : Fault).       (* the process leaves defined behaviour *)

(** A method is entered with nothing scheduled.  When it returns, a
    scheduled exception takes the place of the returned value.  A C++
    exception that leaves the method meets no handler. *)
Definition invoke (method : list JSValue -> M JSValue) (args : list JSValue) (w : World)
  : Completion * World :=
  match method args (set_scheduled None w) with
  | Ok v w' =>
      match scheduled w' with
      | Some msg => (Raised msg, set_scheduled None w')
      | None => (Returned v, w')
      end
  | Throw e w' => (Crashed (Terminate (message e)), w')
  | Abort f w' => (Crashed f, w')
  end.

(** [n] calls of the same method in a row: how each ended, and the world
    they leave. *)
Fixpoint invoke_times (method : list JSValue -> M JSValue) (args : list JSValue)
    (n : nat) (w : World) : list Completion * World :=
  match n with
  | O => ([], w)
  | S n' =>
      let r := invoke method args w in
      let rs := invoke_times method args n' (snd r) in
      (fst r :: fst rs, snd rs)
  end.

(** The world after a transfer through a temporary buffer: one more
    native call, and the buffer gone. *)
Definition after_transfer (c : NativeCall) (w : World) : World :=
  set_heap (heap w ++ [None]) (record c w).

Arguments fresh : simpl never.
Arguments overwrite : simpl never.

(** ** Test doubles *)

(** A host: the engine turns every string and object into NaN, and
    storage that was never written holds 0xCD. *)
Definition plain_host : Host := {|
  engine_ToNumber := fun _ => NaN;
  indeterminate := fun _ => 205
|}.

Definition mouse : hid_device_info := {|
  path := Some "/dev/hidraw0"%string;
  vendor_id := 1133;
  product_id := 50475;
  serial_number := None;
  release_number := 4609;
  manufacturer_string := Some [76; 111; 103; 105; 8482];
  product_string := Some [77; 111; 117; 115; 101];
  usage_page := 1;
  usage := 2;
  interface_number := 0
|}.

Definition keyboard : hid_device_info := {|
  path := None;
  vendor_id := 1452;
  product_id := 592;
  serial_number := Some [75; 49];
  release_number := 1;
  manufacturer_string := None;
  product_string := None;
  usage_page := 1;
  usage := 6;
  interface_number := 1
|}.

(** A device that takes what it is sent, has the two bytes AA BB to read
    and answers a feature report request with the report id and two more
    bytes.  A call on a null handle fails. *)
Definition mock_device : hidapi := {|
  hid_set_nonblocking_result := fun _ h _ => match h with Some _ => 0 | None => -1 end;
  hid_write_result := fun _ h _ len => match h with Some _ => len | None => -1 end;
  hid_read_result := fun _ h _ => match h with Some _ => (2, [170; 187]) | None => (-1, []) end;
  hid_get_feature_report_result := fun _ h data _ =>
    match h with Some _ => (3, take 1 data ++ [7; 9]) | None => (-1, []) end;
  hid_send_feature_report_result := fun _ h _ len => match h with Some _ => len | None => -1 end;
  attached := fun _ => [mouse; keyboard]
|}.

(** A device on which every transfer fails. *)
Definition broken_device : hidapi := {|
  hid_set_nonblocking_result := fun _ _ _ => -1;
  hid_write_result := fun _ _ _ _ => -1;
  hid_read_result := fun _ _ _ => (-1, []);
  hid_get_feature_report_result := fun _ _ _ _ => (-1, []);
  hid_send_feature_report_result := fun _ _ _ _ => -1;
  attached := fun _ => []
|}.

(** A world with the handle open on device 1 and nothing else going on. *)
Definition opened : World := mkWorld (Some 1%positive) 0 None [] [] [] [].

(** ** Opening a device *)

(** [os << hex << n] for a non-negative [n]: the digits, in lower case,
    without prefix or padding. *)
Definition hex (n : Z) : string :=
  match n with
  | Z.pos p => HexString.Raw.of_pos p ""
  | _ => "0"
  end.

(** What the constructors take from outside the file.  The calls that open
    a device have no entry in [NativeCall]; what they answer is what the
    handle becomes. *)
Class opener := {
  (** [hid_open(vendor_id, product_id, serial_number)]; a null
      [serial_number] is [None], a null result is [None] *)
  hid_open_result : list NativeCall -> Z -> Z -> option (list Z) -> option hid_device;
  (** [hid_open_path(path)] *)
  hid_open_path_result : list NativeCall -> string -> option hid_device;
  (** [*NanUtf8String(v)]: the text of [v] as a C string *)
  utf8_string : JSValue -> string;
  (** the wide string [hid_open] finds behind [*NanUcs2String(v)] cast to
      a wide-character pointer *)
  ucs2_string : JSValue -> list Z
}.

Module HIDNew.
Section Constructors.
Context {host : Host} {open : opener}.

(** [HID::HID(unsigned short, unsigned short, wchar_t* serialNumber)], lines 116-125:
    the handle of the object under construction, or the exception. *)
Definition HID_from_ids (vendorId productId : Z) (serialNumber : option (list Z))
  : M hid_device :=
  let vendorId := ushort vendorId in
  let productId := ushort productId in
  fun w =>
    match hid_open_result (trace w) vendorId productId serialNumber with
    | Some h => Ok h w
    | None =>
        Throw (mkJSException
                 (String.concat ""
                    ["cannot open device with vendor id 0x"; hex vendorId;
                     " and product id 0x"; hex productId])) w
    end.

(** [HID::HID(const char* path)], lines 127-136. *)
Definition HID_from_path (path : string) : M hid_device :=
  fun w =>
    match hid_open_path_result (trace w) path with
    | Some h => Ok h w
    | None =>
        Throw (mkJSException (String.append "cannot open device with path " path)) w
    end.

(** [hid->Wrap(args.This())]: the receiver now holds the new object, which
    nothing references yet. *)
Definition Wrap (h : hid_device) : M unit :=
  modify (fun w => set_refs 0 (set_hidHandle (Some h) w)).

(** [NAN_METHOD(HID::New)], lines 330-364. *)
Definition NAN_METHOD_New (IsConstructCall : bool) (This : JSValue) (args : list JSValue)
  : M JSValue :=
  when (negb IsConstructCall)
       (NanThrowError "HID function can only be used as a constructor") ;;
  when (length args <? 1)%nat
       (NanThrowError "HID constructor requires at least one argument") ;;
  try_catch
    (hid <- (if (length args =? 1)%nat
             then HID_from_path (utf8_string (arg args 0))
             else
               let vendorId := Int32Value (arg args 0) in
               let productId := Int32Value (arg args 1) in
               let serialPointer :=
                 if (2 <? length args)%nat then Some (ucs2_string (arg args 2)) else None in
               HID_from_ids vendorId productId serialPointer) ;;
     Wrap hid ;;
     ret This)
    (fun e => throwAsV8Exception e ;; ret JSUndefined).
End Constructors.
End HIDNew.

(** The request [read] makes of a callback. *)
Definition request (callback : JSValue) : ReceiveIOCB := mkReceiveIOCB callback None [].

(** The number of [new[]] blocks not deleted yet. *)
Definition live_blocks (w : World) : nat :=
  length (filter (fun block => is_Some block) (heap w)).

(** ** More test doubles *)

(** The data of the last feature report sent with this report id. *)
Fixpoint last_report (id : Z) (t : list NativeCall) : option (list Z) :=
  match t with
  | [] => None
  | c :: rest =>
      match last_report id rest with
      | Some data => Some data
      | None =>
          match c with
          | call_hid_send_feature_report _ data _ =>
              if decide (head data = Some id) then Some data else None
          | _ => None
          end
      end
  end.

(** A loopback transport: a feature report request is answered with the
    last report sent under the requested id, cut to the size of the
    buffer, and fails when none was sent. *)
Definition loopback : hidapi := {|
  hid_set_nonblocking_result := fun _ _ _ => 0;
  hid_write_result := fun _ _ _ len => len;
  hid_read_result := fun _ _ _ => (0, []);
  hid_get_feature_report_result := fun t _ data len =>
    match head data with
    | Some id =>
        match last_report id t with
        | Some sent =>
            let n := Z.min len (Z.of_nat (length sent)) in (n, take (Z.to_nat n) sent)
        | None => (-1, [])
        end
    | None => (-1, [])
    end;
  hid_send_feature_report_result := fun _ _ _ len => len;
  attached := fun _ => []
|}.


(** No device can be opened. *)
Definition nothing_to_open : opener := {|
  hid_open_result := fun _ _ _ _ => None;
  hid_open_path_result := fun _ _ => None;
  utf8_string := fun v => match v with JSString s => s | _ => "undefined"%string end;
  ucs2_string := fun _ => []
|}.

(** The mouse can be opened, by its ids or by its path, as device 5; with
    no ids given the first device is the mouse. *)
Definition mouse_to_open : opener := {|
  hid_open_result := fun _ vendor product _ =>
    if ((vendor =? 0) || (vendor =? 1133)) && ((product =? 0) || (product =? 50475))
    then Some 5%positive else None;
  hid_open_path_result := fun _ p =>
    if String.eqb p "/dev/hidraw0" then Some 5%positive else None;
  utf8_string := fun v => match v with JSString s => s | _ => "undefined"%string end;
  ucs2_string := fun _ => []
|}.

(** A world in which the receiver wraps nothing yet. *)
Definition unopened : World := mkWorld None 0 None [] [] [] [].

(** ** Theorems *)

Section Close.
Context {host : Host} {api : hidapi}.

Lemma close_on_closed (args : list JSValue) (w : World) :
  _hidHandle w = None ->
  invoke HID.NAN_METHOD_close args w = (Returned JSUndefined, set_scheduled None w).
Proof.
  intros Hnull. unfold invoke, HID.NAN_METHOD_close, try_catch, bind, HID.close, gets.
  cbn. rewrite Hnull. reflexivity.
Qed.

Lemma close_repeated (args : list JSValue) (n : nat) (w : World) :
  _hidHandle w = None -> scheduled w = None ->
  invoke_times HID.NAN_METHOD_close args n w = (replicate n (Returned JSUndefined), w).
Proof.
  intros Hnull Hnone. induction n as [|n IH]; [reflexivity|].
  cbn [invoke_times]. rewrite close_on_closed by assumption.
  assert (set_scheduled None w = w) as ->.
  { destruct w; cbn in *; subst; reflexivity. }
  cbn [fst snd]. rewrite IH. reflexivity.
Qed.

(** C3. [close()] is idempotent.  The first call on an open handle
    returns without error, calls [hid_close] exactly once (it is the one
    call added to the trace) and nulls [_hidHandle]; any number of
    further calls return without error and leave the world as it is, so
    no second release happens. *)
Theorem close_idempotent (args : list JSValue) (w : World) (h : hid_device) :
  _hidHandle w = Some h ->
  let first := invoke HID.NAN_METHOD_close args w in
  fst first = Returned JSUndefined /\
  _hidHandle (snd first) = None /\
  trace (snd first) = trace w ++ [call_hid_close h] /\
  forall n,
    invoke_times HID.NAN_METHOD_close args n (snd first)
    = (replicate n (Returned JSUndefined), snd first).
Proof.
  intros Hopen.
  assert (invoke HID.NAN_METHOD_close args w
          = (Returned JSUndefined,
             set_hidHandle None (record (call_hid_close h) (set_scheduled None w)))) as E.
  { unfold invoke, HID.NAN_METHOD_close, try_catch, bind, HID.close, gets.
    cbn. rewrite Hopen. reflexivity. }
  cbn zeta. rewrite E. cbn [fst snd].
  repeat split.
  intros n. apply close_repeated; reflexivity.
Qed.

End Close.

Lemma close_idempotent_witness :
  let first := invoke HID.NAN_METHOD_close [] opened in
  fst first = Returned JSUndefined /\
  _hidHandle (snd first) = None /\
  trace (snd first) = trace opened ++ [call_hid_close 1%positive] /\
  forall n,
    invoke_times HID.NAN_METHOD_close [] n (snd first)
    = (replicate n (Returned JSUndefined), snd first).
Proof.
  exact (close_idempotent [] opened 1%positive eq_refl).
Defined.

(** Computes the fields of a world built from a destructed one. *)
Ltac world :=
  cbv beta iota delta
    [set_hidHandle set_refs set_scheduled set_trace set_heap set_work set_calls record
     after_transfer _hidHandle refs scheduled trace heap work calls].

(** *** The monad *)

Lemma bind_ret {A B} (a : A) (k : A -> M B) (w : World) : bind (ret a) k w = k a w.
Proof. reflexivity. Qed.

Lemma bind_modify {B} (f : World -> World) (k : unit -> M B) (w : World) :
  bind (modify f) k w = k tt (f w).
Proof. reflexivity. Qed.

Lemma bind_gets {A B} (f : World -> A) (k : A -> M B) (w : World) :
  bind (gets f) k w = k (f w) w.
Proof. reflexivity. Qed.

Lemma bind_Abort {A B} (m : M A) (k : A -> M B) (w w' : World) (f : Fault) :
  m w = Abort f w' -> bind m k w = Abort f w'.
Proof. intros E. unfold bind. rewrite E. reflexivity. Qed.

Lemma bind_Ok {A B} (m : M A) (k : A -> M B) (w w' : World) (a : A) :
  m w = Ok a w' -> bind m k w = k a w'.
Proof. intros E. unfold bind. rewrite E. reflexivity. Qed.

Lemma bind_Throw {A B} (m : M A) (k : A -> M B) (w w' : World) (e : JSException) :
  m w = Throw e w' -> bind m k w = Throw e w'.
Proof. intros E. unfold bind. rewrite E. reflexivity. Qed.



(** *** Storage *)

Section StorageFacts.
Context {host : Host}.

Lemma length_fresh (n : nat) : length (fresh n) = n.
Proof. unfold fresh. rewrite length_fmap, length_seq. reflexivity. Qed.

Lemma overwrite_length (block written : list Z) :
  length (overwrite block written) = length block.
Proof.
  unfold overwrite. rewrite length_take, length_app, length_drop. lia.
Qed.

(** The copy loop leaves the message in the block, from offset [j] on,
    and nothing else changed. *)
Lemma copy_out_spec (p : nat) (message : list Z) :
  forall (j : nat) (w : World) (block : list Z),
    heap w !! p = Some (Some block) ->
    (j + length message <= length block)%nat ->
    copy_out p j message w
    = Ok tt (set_heap
               (<[p := Some (take j block ++ message ++ drop (j + length message) block)]>
                  (heap w)) w).
Proof.
  induction message as [|b rest IH]; intros j w block Hp Hlen.
  - cbn. unfold ret. f_equal.
    rewrite Nat.add_0_r, take_drop.
    rewrite list_insert_id by assumption. destruct w; reflexivity.
  - cbn [copy_out length] in *. unfold bind at 1. unfold store at 1.
    rewrite Hp. destruct (decide (j < length block)%nat) as [Hj|Hj]; [|lia].
    rewrite (IH (S j) _ (<[j := b]> block)).
    + destruct w as [hh rf sc tr hp wk cl]. unfold set_heap. cbn in *.
      rewrite list_insert_insert_eq. do 4 f_equal.
      rewrite (take_S_r _ _ b) by (apply list_lookup_insert_eq; assumption).
      rewrite take_insert_ge by lia.
      rewrite drop_insert_lt by lia.
      rewrite <- app_assoc. cbn.
      replace (S (j + length rest)) with (j + S (length rest))%nat by lia.
      reflexivity.
    + cbn [heap set_heap]. apply list_lookup_insert_eq.
      apply lookup_lt_Some in Hp. assumption.
    + rewrite length_insert. lia.
Qed.

(** A fresh array filled by the copy loop holds exactly the message
    when the rest of the method, [k], takes over. *)
Lemma new_then_copy {A} (message : list Z) (k : nat -> M A) (w : World) :
  (buf <- new_array (Z.of_nat (length message)) ;; copy_out buf 0 message ;; k buf) w
  = k (length (heap w)) (set_heap (heap w ++ [Some message]) w).
Proof.
  unfold bind at 1. unfold new_array.
  destruct (Z.ltb_spec (Z.of_nat (length message)) 0) as [Hneg|_]; [lia|].
  rewrite Nat2Z.id. unfold bind at 1.
  rewrite (copy_out_spec _ _ _ _ (fresh (length message))).
  - f_equal. destruct w as [hh rf sc tr hp wk cl]. unfold set_heap. cbn.
    rewrite drop_ge by (rewrite length_fresh; lia).
    rewrite app_nil_r.
    replace (length hp) with (length hp + 0)%nat at 1 by lia.
    rewrite insert_app_r. reflexivity.
  - cbn [heap set_heap]. rewrite lookup_app_r by lia.
    rewrite Nat.sub_diag. reflexivity.
  - rewrite length_fresh. lia.
Qed.

Lemma load_from_spec (p : nat) (w : World) (block : list Z) :
  heap w !! p = Some (Some block) ->
  forall (n i : nat),
    (i + n <= length block)%nat ->
    load_from p i n w = Ok (take n (drop i block)) w.
Proof.
  intros Hp. induction n as [|n IH]; intros i Hlen.
  - reflexivity.
  - cbn [load_from]. unfold bind at 1. unfold load. rewrite Hp.
    destruct (block !! i) as [v|] eqn:Hv.
    + unfold bind at 1. rewrite IH by lia. unfold ret.
      rewrite (drop_S block v i Hv). reflexivity.
    + apply lookup_ge_None in Hv. lia.
Qed.
End StorageFacts.

(** *** Writing *)

Section Write.
Context {host : Host} {api : hidapi}.

(** [HID::write]: the message reaches [hid_write] unchanged, once, and
    the call fails exactly when the native result is negative. *)
Lemma write_spec (message : list Z) (w : World) :
  let len := Z.of_nat (length message) in
  let w' := after_transfer (call_hid_write (_hidHandle w) message len) w in
  HID.write message w
  = if hid_write_result (trace w) (_hidHandle w) message len <? 0
    then Throw (mkJSException "Cannot write to HID device") w'
    else Ok tt w'.
Proof.
  cbn zeta. unfold HID.write. rewrite new_then_copy.
  destruct w as [hh rf sc tr hp wk cl].
  unfold hid_write, contents, delete_array, after_transfer, record, set_heap, set_trace.
  unfold bind. cbn. rewrite lookup_app_r by lia. rewrite Nat.sub_diag. cbn.
  rewrite lookup_app_r by lia. rewrite Nat.sub_diag. cbn.
  rewrite insert_app_r_alt by lia. rewrite Nat.sub_diag. cbn.
  destruct (_ <? 0); reflexivity.
Qed.
End Write.

(** *** Numbers and bytes *)

Lemma truncate_inject_Z (z : Z) : truncate (inject_Z z) = z.
Proof. unfold truncate, inject_Z. cbn. apply Z.quot_1_r. Qed.

Lemma uchar_int32 (z : Z) : uchar (int32 z) = uchar z.
Proof.
  unfold uchar, int32.
  rewrite (Z.mod_eq (z + 2 ^ 31) (2 ^ 32)) by lia.
  replace (z + 2 ^ 31 - 2 ^ 32 * ((z + 2 ^ 31) / 2 ^ 32) - 2 ^ 31)
    with (z + (- (2 ^ 24 * ((z + 2 ^ 31) / 2 ^ 32))) * 256) by lia.
  apply Z_mod_plus_full.
Qed.



Section Collect.
Context {host : Host}.

(** The byte an array element is sent as. *)
Lemma byte_of_integer (z : Z) : uchar (Int32Value (JSNumber (Integer z))) = z mod 2 ^ 8.
Proof.
  unfold Int32Value, ToNumber, ToInt32, Integer.
  rewrite truncate_inject_Z, uchar_int32. reflexivity.
Qed.

(** On an array of numbers the loop rejects nothing and keeps the order. *)
Lemma collect_numbers (elems : list JSValue) (w : World) :
  forallb IsNumber elems = true ->
  HID.collect elems w = Ok ((fun v => uchar (Int32Value v)) <$> elems) w.
Proof.
  induction elems as [|v rest IH]; intros Hnum; [reflexivity|].
  cbn in Hnum. apply andb_prop in Hnum as [Hv Hrest].
  cbn [HID.collect]. rewrite Hv. cbn [negb]. unfold bind.
  rewrite IH by assumption. reflexivity.
Qed.

(** The loop stops at the first element that is no number, with a C++
    exception and nothing else done. *)
Lemma collect_rejects (elems : list JSValue) (w : World) :
  forallb IsNumber elems = false ->
  HID.collect elems w
  = Throw (mkJSException
             "unexpected array element in array to send, expecting only integers") w.
Proof.
  induction elems as [|v rest IH]; intros Hnum; [discriminate|].
  cbn in Hnum. cbn [HID.collect].
  destruct (IsNumber v); cbn [negb andb] in *; [|reflexivity].
  unfold bind. rewrite IH by assumption. reflexivity.
Qed.
End Collect.

(** *** [write] and [sendFeatureReport] from JavaScript *)

Section Transfers.
Context {host : Host} {api : hidapi}.

(** [write] called with an array of numbers as its first argument,
    whatever the number of arguments. *)
Lemma invoke_write_numbers (args elems : list JSValue) (w : World) :
  arg args 0 = JSArray elems ->
  forallb IsNumber elems = true ->
  let message := (fun v => uchar (Int32Value v)) <$> elems in
  let len := Z.of_nat (length elems) in
  let w' := after_transfer (call_hid_write (_hidHandle w) message len)
              (set_scheduled None w) in
  invoke HID.NAN_METHOD_write args w
  = if hid_write_result (trace w) (_hidHandle w) message len <? 0
    then (Raised "Cannot write to HID device", w')
    else if negb (length args =? 1)%nat
    then (Raised "HID write requires one argument", w')
    else (Returned JSUndefined, w').
Proof.
  intros Harg Hnum. cbn zeta.
  unfold invoke, HID.NAN_METHOD_write. rewrite Harg.
  cbn [HID.Array_Cast]. unfold try_catch.
  destruct w as [hh rf sc tr hp wk cl].
  destruct (negb (length args =? 1)%nat);
    cbn [when]; unfold NanThrowError;
    (rewrite ?bind_modify, !bind_ret,
       (bind_Ok _ _ _ _ _ (collect_numbers elems _ Hnum));
     unfold bind; rewrite write_spec; rewrite length_fmap; cbn;
     destruct (_ <? 0); reflexivity).
Qed.

(** An element that is no number: [write] catches the C++ exception of
    the loop and raises it in JavaScript, before any buffer or native call. *)
Lemma write_rejects_element (elems : list JSValue) (w : World) :
  forallb IsNumber elems = false ->
  invoke HID.NAN_METHOD_write [JSArray elems] w
  = (Raised "unexpected array element in array to send, expecting only integers",
     set_scheduled None w).
Proof.
  intros Hbad. unfold invoke, HID.NAN_METHOD_write.
  change (arg [JSArray elems] 0) with (JSArray elems).
  change (length [JSArray elems] =? 1)%nat with true.
  cbn [negb when HID.Array_Cast]. rewrite bind_ret. unfold try_catch.
  rewrite bind_ret. rewrite (bind_Throw _ _ _ _ _ (collect_rejects elems _ Hbad)).
  destruct w; reflexivity.
Qed.

(** The same element in [sendFeatureReport], whose loop has no [catch]
    around it: the C++ exception leaves the method. *)
Lemma sendFeatureReport_element_uncaught (elems : list JSValue) (w : World) :
  forallb IsNumber elems = false ->
  invoke HID.NAN_METHOD_sendFeatureReport [JSArray elems] w
  = (Crashed (Terminate "unexpected array element in array to send, expecting only integers"),
     set_scheduled None w).
Proof.
  intros Hbad. unfold invoke, HID.NAN_METHOD_sendFeatureReport.
  change (arg [JSArray elems] 0) with (JSArray elems).
  change (length [JSArray elems] =? 1)%nat with true.
  cbn [negb when HID.Array_Cast]. rewrite !bind_ret.
  rewrite (bind_Throw _ _ _ _ _ (collect_rejects elems _ Hbad)).
  reflexivity.
Qed.

(** [sendFeatureReport] called with an array of numbers as its first
    argument, whatever the number of arguments. *)
Lemma invoke_sendFeatureReport_numbers (args elems : list JSValue) (w : World) :
  arg args 0 = JSArray elems ->
  forallb IsNumber elems = true ->
  let message := (fun v => uchar (Int32Value v)) <$> elems in
  let len := Z.of_nat (length elems) in
  let w' := after_transfer (call_hid_send_feature_report (_hidHandle w) message len)
              (set_scheduled None w) in
  let res := hid_send_feature_report_result (trace w) (_hidHandle w) message len in
  invoke HID.NAN_METHOD_sendFeatureReport args w
  = if res =? -1
    then (Raised "could not send feature report to device", w')
    else if negb (length args =? 1)%nat
    then (Raised "need report (including id in first byte) only in sendFeatureReport", w')
    else (Returned (JSNumber (Integer res)), w').
Proof.
  intros Harg Hnum. cbn zeta.
  unfold invoke, HID.NAN_METHOD_sendFeatureReport. rewrite Harg.
  cbn [HID.Array_Cast].
  destruct w as [hh rf sc tr hp wk cl].
  destruct (negb (length args =? 1)%nat);
    cbn [when]; unfold NanThrowError;
    (rewrite ?bind_modify, !bind_ret,
       (bind_Ok _ _ _ _ _ (collect_numbers elems _ Hnum));
     rewrite new_then_copy; rewrite length_fmap;
     unfold hid_send_feature_report, contents, delete_array, after_transfer, record,
       set_heap, set_trace, set_scheduled, when, NanThrowError, modify;
     cbv beta iota delta [bind ret]; cbn;
     rewrite lookup_app_r by lia; rewrite Nat.sub_diag; cbn;
     rewrite lookup_app_r by lia; rewrite Nat.sub_diag; cbn;
     rewrite insert_app_r_alt by lia; rewrite Nat.sub_diag; cbn;
     destruct (_ =? -1); reflexivity).
Qed.
End Transfers.

(** *** [getFeatureReport] *)

Section FeatureReport.
Context {host : Host} {api : hidapi}.

(** From the allocation to the return of the native call: the callee
    finds a buffer of [bufSize] bytes whose first byte, if it has one, is
    [reportId], and what it stores is in the block afterwards. *)
Lemma getFeatureReport_prefix {A} (reportId bufSize : Z) (k : nat -> Z -> M A) (w : World) :
  0 <= bufSize ->
  let data := <[0%nat := reportId]> (fresh (Z.to_nat bufSize)) in
  let answer := hid_get_feature_report_result (trace w) (_hidHandle w) data bufSize in
  (buf <- new_array bufSize ;;
   store buf 0 reportId ;;
   returnedLength <- hid_get_feature_report buf bufSize ;;
   k buf returnedLength) w
  = k (length (heap w)) (fst answer)
      (set_heap (heap w ++ [Some (overwrite data (snd answer))])
         (record (call_hid_get_feature_report (_hidHandle w) data bufSize) w)).
Proof.
  intros Hpos. cbn zeta.
  destruct w as [hh rf sc tr hp wk cl].
  unfold new_array, store, hid_get_feature_report, contents, fill, record,
    set_heap, set_trace.
  cbv beta iota delta [bind ret]. cbn.
  destruct (Z.ltb_spec bufSize 0) as [Hneg|_]; [lia|]. cbn.
  rewrite lookup_app_r by lia. rewrite Nat.sub_diag. cbn.
  rewrite insert_app_r_alt by lia. rewrite Nat.sub_diag. cbn.
  rewrite lookup_app_r by lia. rewrite Nat.sub_diag. cbn.
  rewrite lookup_app_r by lia. rewrite Nat.sub_diag. cbn.
  rewrite insert_app_r_alt by lia. rewrite Nat.sub_diag. cbn.
  reflexivity.
Qed.

Lemma int32_0 : int32 0 = 0.
Proof. reflexivity. Qed.

(** A positive size passes the second test of the guard, lines 262-265. *)
Lemma getFeatureReport_guard (args : list JSValue) :
  0 < int32 (Uint32Value (arg args 1)) ->
  (Uint32Value (arg args 1) =? 0) = false.
Proof.
  intros Hpos.
  destruct (Z.eqb_spec (Uint32Value (arg args 1)) 0) as [E|_]; [|reflexivity].
  rewrite E, int32_0 in Hpos. lia.
Qed.

(** The part of [getFeatureReport] that works: when the native call does
    not return -1 and returns no more than the size of the buffer, the
    method computes the array of the first [returnedLength] bytes of the
    buffer and releases the buffer once.  With a number of arguments
    other than two the argument error is raised in the end, but the
    native call has been made all the same. *)
Lemma getFeatureReport_success (args : list JSValue) (w : World) :
  let reportId := uchar (Uint32Value (arg args 0)) in
  let bufSize := int32 (Uint32Value (arg args 1)) in
  let data := <[0%nat := reportId]> (fresh (Z.to_nat bufSize)) in
  let answer := hid_get_feature_report_result (trace w) (_hidHandle w) data bufSize in
  0 < bufSize ->
  fst answer <> -1 ->
  fst answer <= bufSize ->
  invoke HID.NAN_METHOD_getFeatureReport args w
  = (if negb (length args =? 2)%nat
     then Raised "need report ID and non-zero length parameter in getFeatureReport"
     else Returned (JSArray ((fun b => JSNumber (Integer b)) <$>
                               take (Z.to_nat (fst answer)) (overwrite data (snd answer)))),
     after_transfer (call_hid_get_feature_report (_hidHandle w) data bufSize)
       (set_scheduled None w)).
Proof.
  cbn zeta. intros Hpos Hok Hfit.
  unfold invoke, HID.NAN_METHOD_getFeatureReport.
  rewrite getFeatureReport_guard by assumption. rewrite orb_false_r.
  destruct (negb (length args =? 2)%nat);
    cbn [when]; unfold NanThrowError;
    rewrite ?bind_modify, ?bind_ret;
    rewrite getFeatureReport_prefix by lia;
    cbn [trace _hidHandle set_scheduled];
    set (data := <[0%nat := _]> (fresh _));
    set (answer := hid_get_feature_report_result _ _ _ _) in *;
    (destruct (Z.eqb_spec (fst answer) (-1)) as [E|_]; [contradiction|]);
    cbn [when]; rewrite bind_ret;
    (assert (length (overwrite data (snd answer))
             = Z.to_nat (int32 (Uint32Value (arg args 1)))) as Hblock
       by (rewrite overwrite_length; unfold data;
           rewrite length_insert, length_fresh; reflexivity));
    (erewrite bind_Ok; cycle 1;
     [ apply (load_from_spec _ _ (overwrite data (snd answer)));
       [ cbn [heap set_heap]; rewrite lookup_app_r by (cbn; lia);
         cbn [heap]; rewrite Nat.sub_diag; reflexivity
       | rewrite Hblock; lia ] | ]);
    destruct w as [hh rf sc tr hp wk cl];
    unfold delete_array, after_transfer, record, set_heap, set_trace, set_scheduled;
    cbv beta iota delta [bind ret]; cbn;
    rewrite lookup_app_r by lia; rewrite Nat.sub_diag; cbn;
    rewrite insert_app_r_alt by lia; rewrite Nat.sub_diag; cbn;
    reflexivity.
Qed.

(** The failure path of [getFeatureReport], lines 276-285: when the
    native call returns -1 the buffer is deleted and the error scheduled,
    but the method goes on and deletes the buffer again. *)
Lemma getFeatureReport_failure (args : list JSValue) (w : World) :
  let reportId := uchar (Uint32Value (arg args 0)) in
  let bufSize := int32 (Uint32Value (arg args 1)) in
  let data := <[0%nat := reportId]> (fresh (Z.to_nat bufSize)) in
  let answer := hid_get_feature_report_result (trace w) (_hidHandle w) data bufSize in
  0 < bufSize ->
  fst answer = -1 ->
  invoke HID.NAN_METHOD_getFeatureReport args w
  = (Crashed DoubleFree,
     set_scheduled (Some "could not get feature report from device")
       (after_transfer (call_hid_get_feature_report (_hidHandle w) data bufSize) w)).
Proof.
  cbn zeta. intros Hpos Hfail.
  unfold invoke, HID.NAN_METHOD_getFeatureReport.
  rewrite getFeatureReport_guard by assumption. rewrite orb_false_r.
  destruct (negb (length args =? 2)%nat);
    cbn [when]; unfold NanThrowError;
    rewrite ?bind_modify, ?bind_ret;
    rewrite getFeatureReport_prefix by lia;
    cbn [trace _hidHandle set_scheduled];
    rewrite Hfail; change (-1 =? -1) with true;
    change (Z.to_nat (-1)) with 0%nat; cbn [when load_from];
    destruct w as [hh rf sc tr hp wk cl];
    unfold delete_array, NanThrowError, modify, after_transfer, record, set_heap,
      set_trace, set_scheduled;
    cbv beta iota delta [bind ret]; cbn;
    rewrite lookup_app_r by lia; rewrite Nat.sub_diag; cbn;
    rewrite insert_app_r_alt by lia; rewrite Nat.sub_diag; cbn;
    rewrite lookup_app_r by lia; rewrite Nat.sub_diag; cbn;
    reflexivity.
Qed.

(** The copy loop of lines 282-284 over a live block, wherever it ends:
    within the block it finds the block's bytes, past its end bytes that
    are not the block's. *)
Lemma load_from_any (p : nat) (w : World) (block : list Z) :
  heap w !! p = Some (Some block) ->
  forall (n i : nat),
    load_from p i n w
    = Ok ((fun j => default (uchar (indeterminate j)) (block !! j)) <$> seq i n) w.
Proof.
  intros Hp. induction n as [|n IH]; intros i; [reflexivity|].
  cbn [load_from seq fmap list_fmap]. unfold bind at 1. unfold load. rewrite Hp.
  destruct (block !! i) as [v|]; unfold bind at 1; rewrite IH; reflexivity.
Qed.

(** [getFeatureReport] on any arguments that give a size that is not
    negative, when the native call does not return -1: the call is made,
    the loop copies as many bytes as the call returned, the buffer is
    released, and what the caller gets is the argument error if the guard
    of lines 262-265 scheduled it and the array otherwise. *)
Lemma getFeatureReport_completes (args : list JSValue) (w : World) :
  let reportId := uchar (Uint32Value (arg args 0)) in
  let bufSize := int32 (Uint32Value (arg args 1)) in
  let data := <[0%nat := reportId]> (fresh (Z.to_nat bufSize)) in
  let answer := hid_get_feature_report_result (trace w) (_hidHandle w) data bufSize in
  let block := overwrite data (snd answer) in
  0 <= bufSize ->
  fst answer <> -1 ->
  invoke HID.NAN_METHOD_getFeatureReport args w
  = (if negb (length args =? 2)%nat || (Uint32Value (arg args 1) =? 0)
     then Raised "need report ID and non-zero length parameter in getFeatureReport"
     else Returned (JSArray ((fun b => JSNumber (Integer b)) <$>
                               ((fun j => default (uchar (indeterminate j)) (block !! j))
                                  <$> seq 0 (Z.to_nat (fst answer))))),
     after_transfer (call_hid_get_feature_report (_hidHandle w) data bufSize)
       (set_scheduled None w)).
Proof.
  cbn zeta. intros Hpos Hok.
  unfold invoke, HID.NAN_METHOD_getFeatureReport.
  destruct (negb (length args =? 2)%nat || (Uint32Value (arg args 1) =? 0));
    cbn [when]; unfold NanThrowError;
    rewrite ?bind_modify, ?bind_ret;
    rewrite getFeatureReport_prefix by lia;
    cbn [trace _hidHandle set_scheduled];
    set (data := <[0%nat := _]> (fresh _));
    set (answer := hid_get_feature_report_result _ _ _ _) in *;
    (destruct (Z.eqb_spec (fst answer) (-1)) as [E|_]; [contradiction|]);
    cbn [when]; rewrite bind_ret;
    (erewrite bind_Ok; cycle 1;
     [ apply (load_from_any _ _ (overwrite data (snd answer)));
       cbn [heap set_heap]; rewrite lookup_app_r by (cbn; lia);
       cbn [heap]; rewrite Nat.sub_diag; reflexivity | ]);
    destruct w as [hh rf sc tr hp wk cl];
    unfold delete_array, after_transfer, record, set_heap, set_trace, set_scheduled;
    cbv beta iota delta [bind ret]; cbn;
    rewrite lookup_app_r by lia; rewrite Nat.sub_diag; cbn;
    rewrite insert_app_r_alt by lia; rewrite Nat.sub_diag; cbn;
    reflexivity.
Qed.

(** The same arguments when the native call returns -1: whatever the
    guard scheduled is replaced by the read error, and the buffer is
    deleted twice. *)
Lemma getFeatureReport_aborts (args : list JSValue) (w : World) :
  let reportId := uchar (Uint32Value (arg args 0)) in
  let bufSize := int32 (Uint32Value (arg args 1)) in
  let data := <[0%nat := reportId]> (fresh (Z.to_nat bufSize)) in
  let answer := hid_get_feature_report_result (trace w) (_hidHandle w) data bufSize in
  0 <= bufSize ->
  fst answer = -1 ->
  invoke HID.NAN_METHOD_getFeatureReport args w
  = (Crashed DoubleFree,
     set_scheduled (Some "could not get feature report from device")
       (after_transfer (call_hid_get_feature_report (_hidHandle w) data bufSize) w)).
Proof.
  cbn zeta. intros Hpos Hfail.
  unfold invoke, HID.NAN_METHOD_getFeatureReport.
  destruct (negb (length args =? 2)%nat || (Uint32Value (arg args 1) =? 0));
    cbn [when]; unfold NanThrowError;
    rewrite ?bind_modify, ?bind_ret;
    rewrite getFeatureReport_prefix by lia;
    cbn [trace _hidHandle set_scheduled];
    rewrite Hfail; change (-1 =? -1) with true;
    change (Z.to_nat (-1)) with 0%nat; cbn [when load_from];
    destruct w as [hh rf sc tr hp wk cl];
    unfold delete_array, NanThrowError, modify, after_transfer, record, set_heap,
      set_trace, set_scheduled;
    cbv beta iota delta [bind ret]; cbn;
    rewrite lookup_app_r by lia; rewrite Nat.sub_diag; cbn;
    rewrite insert_app_r_alt by lia; rewrite Nat.sub_diag; cbn;
    rewrite lookup_app_r by lia; rewrite Nat.sub_diag; cbn;
    reflexivity.
Qed.
End FeatureReport.

(** *** [setNonBlocking] *)

Section NonBlocking.
Context {host : Host} {api : hidapi}.

(** Whatever the arguments, [hid_set_nonblocking] is called, with the
    number the first argument converts to. *)
Lemma invoke_setNonBlocking (args : list JSValue) (w : World) :
  let blockStatus := Int32Value (arg args 0) in
  let res := hid_set_nonblocking_result (trace w) (_hidHandle w) blockStatus in
  let w' := record (call_hid_set_nonblocking (_hidHandle w) blockStatus)
              (set_scheduled None w) in
  invoke HID.NAN_METHOD_setNonBlocking args w
  = if res <? 0 then (Raised "Error setting non-blocking mode.", w')
    else if negb (length args =? 1)%nat
    then (Raised "Expecting a 1 to enable, 0 to disable as the first argument.", w')
    else (Returned JSUndefined, w').
Proof.
  cbn zeta. unfold invoke, HID.NAN_METHOD_setNonBlocking, HID.setNonBlocking.
  destruct w as [hh rf sc tr hp wk cl].
  unfold hid_set_nonblocking, try_catch, throwAsV8Exception, NanThrowError, modify,
    when, throw, record, set_trace, set_scheduled.
  destruct (negb (length args =? 1)%nat);
    cbv beta iota delta [bind ret]; cbn; destruct (_ <? 0); reflexivity.
Qed.
End NonBlocking.

(** *** The asynchronous read *)

Section Read.
Context {host : Host} {api : hidapi}.

(** Submission: the handle is referenced, the request queued, and
    nothing is raised. *)
Lemma invoke_read (cb : nat) (w : World) :
  invoke HID.NAN_METHOD_read [JSFunction cb] w
  = (Returned JSUndefined,
     set_work (work w ++ [mkReceiveIOCB (JSFunction cb) None []])
       (set_refs (S (refs w)) (set_scheduled None w))).
Proof.
  destruct w as [hh rf sc tr hp wk cl]. reflexivity.
Qed.

(** The worker's part. *)
Lemma recvAsync_spec (iocb : ReceiveIOCB) (w : World) :
  let answer := hid_read_result (trace w) (_hidHandle w) 1024 in
  let buf := overwrite (fresh HID.READ_BUFFER_SIZE) (snd answer) in
  let w' := record (call_hid_read (_hidHandle w) 1024) w in
  fst answer <= 1024 ->
  HID.recvAsync iocb w
  = Ok (if fst answer <? 0
        then mkReceiveIOCB (_callback iocb)
               (Some (mkJSException "could not read from HID device")) (_data iocb)
        else mkReceiveIOCB (_callback iocb) (_error iocb)
               (take (Z.to_nat (fst answer)) buf)) w'.
Proof.
  cbn zeta. intros Hfit. unfold HID.recvAsync, hid_read.
  change (Z.of_nat HID.READ_BUFFER_SIZE) with 1024.
  cbv beta iota delta [bind ret]. cbn [fst snd].
  destruct (_ <? 0); [reflexivity|].
  rewrite overwrite_length, length_fresh.
  change (Z.of_nat HID.READ_BUFFER_SIZE) with 1024.
  destruct (Z.ltb_spec 1024 (fst (hid_read_result (trace w) (_hidHandle w) 1024)));
    [lia|reflexivity].
Qed.
(** Submission followed by one turn of the loop, on a handle with no
    other read in flight. *)
Lemma read_turn (cb : nat) (w : World) :
  let answer := hid_read_result (trace w) (_hidHandle w) 1024 in
  let buf := overwrite (fresh HID.READ_BUFFER_SIZE) (snd answer) in
  work w = [] ->
  fst answer <= 1024 ->
  HID.uv_run_once (snd (invoke HID.NAN_METHOD_read [JSFunction cb] w))
  = Ok tt
      (set_calls
         (calls w ++
            [(JSFunction cb,
              if fst answer <? 0
              then [JSError "could not read from HID device"; JSUndefined]
              else [JSUndefined; JSBuffer (take (Z.to_nat (fst answer)) buf)])])
         (record (call_hid_read (_hidHandle w) 1024) (set_scheduled None w))).
Proof.
  cbn zeta. intros Hidle Hfit. rewrite invoke_read. cbn [fst snd].
  destruct w as [hh rf sc tr hp wk cl]. cbn in Hidle. subst wk.
  unfold HID.uv_run_once. rewrite bind_gets. world. cbn [app].
  rewrite bind_modify.
  erewrite bind_Ok; [|apply recvAsync_spec; exact Hfit].
  world. cbn [trace _hidHandle] in Hfit.
  unfold HID.recvAsyncDone, HID.readResultsToJSCallbackArguments, HID.Unref, HID.Call.
  destruct (fst (hid_read_result tr hh 1024) <? 0);
    cbn [_callback _error _data IsFunction message _message];
    rewrite !bind_modify; reflexivity.
Qed.
End Read.

(** *** Enumeration *)

Section Enumeration.
Context {host : Host} {api : hidapi}.

(** The ids [devices] passes to [hid_enumerate]. *)
Lemma invoke_devices (args : list JSValue) (w : World) :
  let ids := match length args with
             | 2%nat => (ushort (Int32Value (arg args 0)), ushort (Int32Value (arg args 1)))
             | _ => (0, 0)
             end in
  let devs := filter (fun dev => matches (fst ids) (snd ids) dev = true)
                (attached (trace w)) in
  let w' := record call_hid_free_enumeration
              (record (call_hid_enumerate (fst ids) (snd ids)) (set_scheduled None w)) in
  invoke HID.NAN_METHOD_devices args w
  = (match length args with
     | 0%nat | 2%nat => Returned (JSArray ((fun dev => JSObject (HID.deviceInfo dev)) <$> devs))
     | _ => Raised "unexpected number of arguments to HID.devices() call, expecting either no arguments or vendor and product ID"
     end, w').
Proof.
  cbn zeta. unfold invoke, HID.NAN_METHOD_devices.
  destruct w as [hh rf sc tr hp wk cl].
  destruct (length args) as [|[|[|n]]]; reflexivity.
Qed.
End Enumeration.

(** ** The claims *)

Section AsyncRead.
Context {host : Host} {api : hidapi}.

(** C1. A read submitted with a callback function completes by one
    invocation of that callback with two arguments.  The worker makes one
    [hid_read] on a buffer of 1024 bytes.  When it returns a length
    [n >= 0] (at most the size of the buffer), the error slot is
    [undefined] and the data slot is a buffer of exactly the first [n]
    bytes of the read buffer, which are the bytes the device stored when
    it stored [n] of them; when it returns a negative length, the data
    slot is [undefined] and the error slot carries the read error.
    After that the request is gone, the handle's reference is given
    back, and a further turn of the loop invokes nothing. *)
Theorem read_completes_once (cb : nat) (w : World) :
  let answer := hid_read_result (trace w) (_hidHandle w) 1024 in
  let n := fst answer in
  let buf := overwrite (fresh HID.READ_BUFFER_SIZE) (snd answer) in
  let submitted := invoke HID.NAN_METHOD_read [JSFunction cb] w in
  work w = [] ->
  n <= 1024 ->
  fst submitted = Returned JSUndefined /\
  exists w',
    HID.uv_run_once (snd submitted) = Ok tt w' /\
    trace w' = trace w ++ [call_hid_read (_hidHandle w) 1024] /\
    calls w' = calls w ++
      [(JSFunction cb,
        if n <? 0
        then [JSError "could not read from HID device"; JSUndefined]
        else [JSUndefined; JSBuffer (take (Z.to_nat n) buf)])] /\
    (0 <= n -> length (take (Z.to_nat n) buf) = Z.to_nat n) /\
    (length (snd answer) = Z.to_nat n -> take (Z.to_nat n) buf = snd answer) /\
    work w' = [] /\
    refs w' = refs w /\
    HID.uv_run_once w' = Ok tt w'.
Proof.
  cbn zeta. intros Hidle Hfit. split; [rewrite invoke_read; reflexivity|].
  rewrite read_turn by assumption.
  set (answer := hid_read_result (trace w) (_hidHandle w) 1024) in *.
  set (buf := overwrite (fresh HID.READ_BUFFER_SIZE) (snd answer)).
  assert (length buf = 1024%nat) as Hbuf.
  { unfold buf. rewrite overwrite_length, length_fresh. reflexivity. }
  eexists. split; [reflexivity|].
  destruct w as [hh rf sc tr hp wk cl]. cbn in Hidle. subst wk. world.
  repeat split.
  - intros Hpos. rewrite length_take. lia.
  - intros Hlen. unfold buf, overwrite.
    rewrite length_fresh, take_take.
    destruct (Z.le_gt_cases 0 (fst answer)) as [Hpos|Hneg].
    + rewrite Nat.min_l by (change HID.READ_BUFFER_SIZE with 1024%nat; lia).
      rewrite <- Hlen. apply take_app_length.
    + assert (Z.to_nat (fst answer) = 0%nat) as E by lia.
      rewrite E in *. destruct (snd answer); [reflexivity|discriminate].
Qed.
End AsyncRead.

Lemma read_completes_once_witness :
  exists w',
    HID.uv_run_once (host := plain_host) (api := mock_device)
      (snd (invoke HID.NAN_METHOD_read [JSFunction 7] opened)) = Ok tt w' /\
    calls w' = [(JSFunction 7, [JSUndefined; JSBuffer [170; 187]])].
Proof.
  destruct (read_completes_once (host := plain_host) (api := mock_device) 7 opened eq_refl)
    as (_ & w' & Hrun & _ & Hcalls & _).
  { vm_compute. discriminate. }
  exists w'. split; [exact Hrun | exact Hcalls].
Defined.

Section AfterClose.
Context {host : Host} {api : hidapi}.


End AfterClose.



Section FeatureReportClaims.
Context {host : Host} {api : hidapi}.

(** C4, on the failure path.  On an open handle, with a report id and a
    positive size, the buffer handed to [hid_get_feature_report] has the
    requested size and the report id in its first byte.  When the native
    call returns -1 the read error is scheduled, but the call does not
    end there: the buffer, already deleted, is deleted a second time. *)
Theorem getFeatureReport_failure_frees_twice
    (reportId size : JSValue) (w : World) (h : hid_device) :
  let bufSize := int32 (Uint32Value size) in
  let data := <[0%nat := uchar (Uint32Value reportId)]> (fresh (Z.to_nat bufSize)) in
  let answer := hid_get_feature_report_result (trace w) (Some h) data bufSize in
  let r := invoke HID.NAN_METHOD_getFeatureReport [reportId; size] w in
  _hidHandle w = Some h ->
  0 < bufSize ->
  fst answer = -1 ->
  Z.of_nat (length data) = bufSize /\
  data !! 0%nat = Some (uchar (Uint32Value reportId)) /\
  trace (snd r) = trace w ++ [call_hid_get_feature_report (Some h) data bufSize] /\
  scheduled (snd r) = Some "could not get feature report from device" /\
  heap (snd r) = heap w ++ [None] /\
  fst r = Crashed DoubleFree.
Proof.
  cbn zeta. intros Hopen Hpos Hfail. rewrite <- Hopen in *.
  rewrite (getFeatureReport_failure [reportId; size]) by assumption.
  assert (length (fresh (Z.to_nat (int32 (Uint32Value size))))
          = Z.to_nat (int32 (Uint32Value size))) as Hlen by apply length_fresh.
  repeat split.
  - rewrite length_insert, Hlen. lia.
  - apply list_lookup_insert_eq. lia.
Qed.

(** C8, where it fails.  When the number of arguments is not two or the
    size converts to 0, the guard of lines 262-265 schedules the argument
    error and the method goes on: the native call is made all the same,
    on a buffer of no bytes when the size is 0.  When that call returns
    -1 the argument error is replaced by the read error and the buffer is
    deleted twice, so that no argument error is raised; otherwise the
    argument error is raised, after the native call. *)
Theorem getFeatureReport_guard_goes_on (args : list JSValue) (w : World) :
  let bufSize := int32 (Uint32Value (arg args 1)) in
  let data := <[0%nat := uchar (Uint32Value (arg args 0))]> (fresh (Z.to_nat bufSize)) in
  let answer := hid_get_feature_report_result (trace w) (_hidHandle w) data bufSize in
  let r := invoke HID.NAN_METHOD_getFeatureReport args w in
  length args <> 2%nat \/ Uint32Value (arg args 1) = 0 ->
  0 <= bufSize ->
  trace (snd r) = trace w ++ [call_hid_get_feature_report (_hidHandle w) data bufSize] /\
  (Uint32Value (arg args 1) = 0 -> data = [] /\ bufSize = 0) /\
  (fst answer = -1 ->
   fst r = Crashed DoubleFree /\
   scheduled (snd r) = Some "could not get feature report from device") /\
  (fst answer <> -1 ->
   fst r = Raised "need report ID and non-zero length parameter in getFeatureReport").
Proof.
  cbn zeta. intros Hbad Hsize.
  assert (negb (length args =? 2)%nat || (Uint32Value (arg args 1) =? 0) = true) as Hguard.
  { destruct Hbad as [Hlen|Hzero].
    - destruct (Nat.eqb_spec (length args) 2); [contradiction|reflexivity].
    - rewrite Hzero. apply orb_true_r. }
  split; [|split; [|split]].
  - destruct (Z.eq_dec
                (fst (hid_get_feature_report_result (trace w) (_hidHandle w)
                        (<[0%nat := uchar (Uint32Value (arg args 0))]>
                           (fresh (Z.to_nat (int32 (Uint32Value (arg args 1))))))
                        (int32 (Uint32Value (arg args 1))))) (-1)) as [E|E].
    + rewrite getFeatureReport_aborts by assumption. destruct w; reflexivity.
    + rewrite getFeatureReport_completes by assumption. destruct w; reflexivity.
  - intros Hzero. rewrite Hzero. split; reflexivity.
  - intros Hfail. rewrite getFeatureReport_aborts by assumption. split; reflexivity.
  - intros Hok. rewrite getFeatureReport_completes by assumption.
    rewrite Hguard. reflexivity.
Qed.
End FeatureReportClaims.

Lemma getFeatureReport_failure_frees_twice_witness :
  let r := invoke (HID.NAN_METHOD_getFeatureReport (host := plain_host) (api := broken_device))
             [JSNumber (Integer 1); JSNumber (Integer 8)] opened in
  trace (snd r)
  = [call_hid_get_feature_report (Some 1%positive) [1; 205; 205; 205; 205; 205; 205; 205] 8] /\
  scheduled (snd r) = Some "could not get feature report from device" /\
  heap (snd r) = [None] /\
  fst r = Crashed DoubleFree.
Proof.
  exact (proj2 (proj2 (getFeatureReport_failure_frees_twice
                         (host := plain_host) (api := broken_device)
                         (JSNumber (Integer 1)) (JSNumber (Integer 8)) opened 1%positive
                         eq_refl eq_refl eq_refl))).
Defined.

Lemma getFeatureReport_guard_goes_on_witness :
  let r := invoke (HID.NAN_METHOD_getFeatureReport (host := plain_host) (api := broken_device))
             [JSNumber (Integer 1); JSNumber (Integer 0)] opened in
  trace (snd r) = [call_hid_get_feature_report (Some 1%positive) [] 0] /\
  fst r = Crashed DoubleFree /\
  scheduled (snd r) = Some "could not get feature report from device".
Proof.
  destruct (getFeatureReport_guard_goes_on (host := plain_host) (api := broken_device)
              [JSNumber (Integer 1); JSNumber (Integer 0)] opened (or_intror eq_refl))
    as (Htrace & _ & Hfail & _).
  { vm_compute. discriminate. }
  split; [exact Htrace | exact (Hfail eq_refl)].
Defined.

Section WriteClaims.
Context {host : Host} {api : hidapi}.

(** Bytes given as JavaScript numbers come out of the conversion as they
    went in. *)
Lemma bytes_unchanged (bytes : list Z) :
  Forall (fun b => 0 <= b < 256) bytes ->
  (fun v => uchar (Int32Value v)) <$> ((fun b => JSNumber (Integer b)) <$> bytes) = bytes.
Proof.
  induction 1 as [|b rest Hb _ IH]; [reflexivity|].
  cbn [fmap list_fmap]. f_equal; [|exact IH].
  rewrite byte_of_integer. apply Z.mod_small. assumption.
Qed.

Lemma bytes_are_numbers (bytes : list Z) :
  forallb IsNumber ((fun b => JSNumber (Integer b)) <$> bytes) = true.
Proof. induction bytes as [|b rest IH]; [reflexivity|exact IH]. Qed.

(** C5, as amended.  On an open handle, [write(bytes)] hands the bytes,
    unchanged and in order, to exactly one [hid_write] through a buffer
    that is released afterwards.  The call raises the write error exactly
    when the native result is negative; otherwise it returns
    [undefined]: the number of bytes written is not passed on. *)
Theorem write_transfers_bytes (bytes : list Z) (w : World) (h : hid_device) :
  let len := Z.of_nat (length bytes) in
  let res := hid_write_result (trace w) (Some h) bytes len in
  let r := invoke HID.NAN_METHOD_write [JSArray ((fun b => JSNumber (Integer b)) <$> bytes)] w in
  _hidHandle w = Some h ->
  Forall (fun b => 0 <= b < 256) bytes ->
  trace (snd r) = trace w ++ [call_hid_write (Some h) bytes len] /\
  heap (snd r) = heap w ++ [None] /\
  (fst r = Raised "Cannot write to HID device" <-> res < 0) /\
  (fst r = Returned JSUndefined <-> 0 <= res).
Proof.
  cbn zeta. intros Hopen Hbytes. rewrite <- Hopen.
  rewrite (invoke_write_numbers _ ((fun b => JSNumber (Integer b)) <$> bytes))
    by (reflexivity || apply bytes_are_numbers).
  rewrite bytes_unchanged by assumption. rewrite length_fmap.
  cbn [length Nat.eqb negb].
  destruct (Z.ltb_spec (hid_write_result (trace w) (_hidHandle w) bytes
                          (Z.of_nat (length bytes))) 0) as [Hneg|Hpos];
    cbn [fst snd]; (split; [reflexivity|]); (split; [reflexivity|]);
    split; split; intros H; try reflexivity; try lia; discriminate H.
Qed.

(** C9.  In [write] and in [sendFeatureReport], an array of numbers is
    sent as the list of its elements' 32-bit integer values reduced
    modulo 256, an integer [z] as [z mod 2^8], and no element is turned
    down for its value: what the call answers depends on the native
    result alone. *)
Theorem elements_sent_modulo_256 (elems : list JSValue) (w : World) :
  let sent := (fun v => Int32Value v mod 256) <$> elems in
  let len := Z.of_nat (length elems) in
  let written := invoke HID.NAN_METHOD_write [JSArray elems] w in
  let reported := invoke HID.NAN_METHOD_sendFeatureReport [JSArray elems] w in
  let res := hid_send_feature_report_result (trace w) (_hidHandle w) sent len in
  forallb IsNumber elems = true ->
  trace (snd written) = trace w ++ [call_hid_write (_hidHandle w) sent len] /\
  fst written = (if hid_write_result (trace w) (_hidHandle w) sent len <? 0
                 then Raised "Cannot write to HID device"
                 else Returned JSUndefined) /\
  trace (snd reported) = trace w ++ [call_hid_send_feature_report (_hidHandle w) sent len] /\
  fst reported = (if res =? -1
                  then Raised "could not send feature report to device"
                  else Returned (JSNumber (Integer res))) /\
  Forall (fun b => 0 <= b < 256) sent /\
  (forall z, Int32Value (JSNumber (Integer z)) mod 256 = z mod 2 ^ 8).
Proof.
  cbn zeta. intros Hnum.
  rewrite (invoke_write_numbers [JSArray elems] elems) by (reflexivity || assumption).
  rewrite (invoke_sendFeatureReport_numbers [JSArray elems] elems)
    by (reflexivity || assumption).
  cbn [length Nat.eqb negb]. unfold uchar.
  split; [destruct (_ <? 0); reflexivity|].
  split; [destruct (_ <? 0); reflexivity|].
  split; [destruct (_ =? -1); reflexivity|].
  split; [destruct (_ =? -1); reflexivity|].
  split.
  - apply Forall_fmap, Forall_true. intros v. cbn. apply Z.mod_pos_bound. lia.
  - intros z. apply byte_of_integer.
Qed.

(** C7, where it fails.  The arity tests of [setNonBlocking], [write],
    [sendFeatureReport] and [getFeatureReport] schedule an error and let
    the method go on: with a wrong number of arguments the native call
    is made all the same. *)
Theorem wrong_arity_reaches_native (args : list JSValue) (w : World) (h : hid_device) :
  _hidHandle w = Some h ->
  ((length args <> 1)%nat ->
   let r := invoke HID.NAN_METHOD_setNonBlocking args w in
   let res := hid_set_nonblocking_result (trace w) (Some h) (Int32Value (arg args 0)) in
   trace (snd r)
   = trace w ++ [call_hid_set_nonblocking (Some h) (Int32Value (arg args 0))] /\
   (0 <= res ->
    fst r = Raised "Expecting a 1 to enable, 0 to disable as the first argument.")) /\
  (forall elems,
     (length args <> 1)%nat ->
     arg args 0 = JSArray elems ->
     forallb IsNumber elems = true ->
     let message := (fun v => uchar (Int32Value v)) <$> elems in
     let len := Z.of_nat (length elems) in
     trace (snd (invoke HID.NAN_METHOD_write args w))
     = trace w ++ [call_hid_write (Some h) message len] /\
     trace (snd (invoke HID.NAN_METHOD_sendFeatureReport args w))
     = trace w ++ [call_hid_send_feature_report (Some h) message len]) /\
  (let bufSize := int32 (Uint32Value (arg args 1)) in
   let data := <[0%nat := uchar (Uint32Value (arg args 0))]> (fresh (Z.to_nat bufSize)) in
   let answer := hid_get_feature_report_result (trace w) (Some h) data bufSize in
   (length args <> 2)%nat ->
   0 < bufSize ->
   fst answer <= bufSize ->
   trace (snd (invoke HID.NAN_METHOD_getFeatureReport args w))
   = trace w ++ [call_hid_get_feature_report (Some h) data bufSize]).
Proof.
  intros Hopen. rewrite <- Hopen. split; [|split].
  - intros Harity. cbn zeta. rewrite invoke_setNonBlocking.
    destruct (Nat.eqb_spec (length args) 1) as [E|_]; [contradiction|].
    cbn [negb].
    destruct (Z.ltb_spec (hid_set_nonblocking_result (trace w) (_hidHandle w)
                            (Int32Value (arg args 0))) 0) as [Hneg|Hpos];
      (split; [destruct w; reflexivity|]); intros Hres; [lia|reflexivity].
  - intros elems _ Harg Hnum. cbn zeta.
    rewrite (invoke_write_numbers args elems) by assumption.
    rewrite (invoke_sendFeatureReport_numbers args elems) by assumption.
    split.
    + destruct (_ <? 0); [|destruct (negb _)]; destruct w; reflexivity.
    + destruct (_ =? -1); [|destruct (negb _)]; destruct w; reflexivity.
  - cbn zeta. intros _ Hpos Hfit.
    destruct (Z.eq_dec
                (fst (hid_get_feature_report_result (trace w) (_hidHandle w)
                        (<[0%nat := uchar (Uint32Value (arg args 0))]>
                           (fresh (Z.to_nat (int32 (Uint32Value (arg args 1))))))
                        (int32 (Uint32Value (arg args 1))))) (-1)) as [E|E].
    + rewrite getFeatureReport_failure by assumption. destruct w; reflexivity.
    + rewrite getFeatureReport_success by assumption. destruct w; reflexivity.
Qed.
End WriteClaims.

(** C5, as stated, fails: [write([1, 2, 3])] on an open handle whose
    native write reports 3 bytes written returns [undefined], not 3. *)
Lemma write_returns_count_counterexample :
  let bytes := [JSNumber (Integer 1); JSNumber (Integer 2); JSNumber (Integer 3)] in
  let r := invoke (HID.NAN_METHOD_write (host := plain_host) (api := mock_device))
             [JSArray bytes] opened in
  hid_write_result (hidapi := mock_device) (trace opened) (_hidHandle opened) [1; 2; 3] 3 = 3 /\
  fst r = Returned JSUndefined /\
  fst r <> Returned (JSNumber (Integer 3)).
Proof.
  vm_compute. repeat split. discriminate.
Qed.

Lemma write_transfers_bytes_witness :
  let r := invoke (HID.NAN_METHOD_write (host := plain_host) (api := mock_device))
             [JSArray [JSNumber (Integer 1); JSNumber (Integer 2); JSNumber (Integer 3)]]
             opened in
  trace (snd r) = [call_hid_write (Some 1%positive) [1; 2; 3] 3] /\
  heap (snd r) = [None] /\
  (fst r = Raised "Cannot write to HID device" <-> 3 < 0) /\
  (fst r = Returned JSUndefined <-> 0 <= 3).
Proof.
  refine (write_transfers_bytes (host := plain_host) (api := mock_device)
            [1; 2; 3] opened 1%positive eq_refl _).
  repeat constructor; lia.
Defined.

Lemma elements_sent_modulo_256_witness :
  let elems := [JSNumber (Integer 511); JSNumber (Integer (-1)); JSNumber (Finite (7 # 2))] in
  trace (snd (invoke (HID.NAN_METHOD_write (host := plain_host) (api := mock_device))
                [JSArray elems] opened))
  = [call_hid_write (Some 1%positive) [255; 255; 3] 3] /\
  trace (snd (invoke (HID.NAN_METHOD_sendFeatureReport (host := plain_host) (api := mock_device))
                [JSArray elems] opened))
  = [call_hid_send_feature_report (Some 1%positive) [255; 255; 3] 3].
Proof.
  pose proof (elements_sent_modulo_256 (host := plain_host) (api := mock_device)
                [JSNumber (Integer 511); JSNumber (Integer (-1)); JSNumber (Finite (7 # 2))]
                opened eq_refl) as (Hwrite & _ & Hsend & _).
  split; [exact Hwrite | exact Hsend].
Defined.

Lemma wrong_arity_reaches_native_witness :
  let r := invoke (HID.NAN_METHOD_setNonBlocking (host := plain_host) (api := mock_device))
             [] opened in
  trace (snd r) = [call_hid_set_nonblocking (Some 1%positive) 0] /\
  fst r = Raised "Expecting a 1 to enable, 0 to disable as the first argument.".
Proof.
  destruct (proj1 (wrong_arity_reaches_native (host := plain_host) (api := mock_device)
                     [] opened 1%positive eq_refl))
    as [Htrace Hraised].
  { cbn. lia. }
  split; [exact Htrace | apply Hraised; vm_compute; discriminate].
Defined.

Section EnumerationClaims.
Context {host : Host} {api : hidapi}.

Lemma filter_all {A} (P : A -> Prop) `{!forall x, Decision (P x)} (l : list A) :
  (forall x, P x) -> filter P l = l.
Proof.
  intros Hall. induction l as [|x l IH]; [reflexivity|].
  rewrite filter_cons_True by apply Hall. rewrite IH. reflexivity.
Qed.

Lemma matches_nothing (dev : hid_device_info) : matches 0 0 dev = true.
Proof. reflexivity. Qed.

Lemma matches_exact (vendor product : Z) (dev : hid_device_info) :
  vendor <> 0 -> product <> 0 ->
  matches vendor product dev = true
  <-> vendor_id dev = vendor /\ product_id dev = product.
Proof.
  intros Hv Hp. unfold matches.
  destruct (Z.eqb_spec vendor 0) as [E|_]; [contradiction|].
  destruct (Z.eqb_spec product 0) as [E|_]; [contradiction|].
  cbn [orb]. rewrite andb_true_iff, !Z.eqb_eq. reflexivity.
Qed.

(** C6, as amended.  Called with no argument, [devices] asks
    [hid_enumerate] for vendor 0 and product 0 and describes every
    attached device.  Called with two arguments, it passes their values
    to [hid_enumerate] as [unsigned short], that is modulo 65536, so a
    value from 1 to 65535 is passed as it is.  When neither is 0 modulo
    65536, it describes exactly the attached devices whose vendor and
    product ids are the two 16-bit values.  So the filtered answer is the
    unfiltered one restricted to that pair of 16-bit ids, and a sublist
    of it. *)
Theorem devices_filter (a0 a1 : JSValue) (w : World) :
  let describe := fun dev => JSObject (HID.deviceInfo dev) in
  let vendor := ushort (Int32Value a0) in
  let product := ushort (Int32Value a1) in
  let unfiltered := invoke HID.NAN_METHOD_devices [] w in
  let filtered := invoke HID.NAN_METHOD_devices [a0; a1] w in
  let restricted :=
    filter (fun dev => vendor_id dev = vendor /\ product_id dev = product)
      (attached (trace w)) in
  trace (snd unfiltered)
  = trace w ++ [call_hid_enumerate 0 0; call_hid_free_enumeration] /\
  fst unfiltered = Returned (JSArray (describe <$> attached (trace w))) /\
  trace (snd filtered)
  = trace w ++ [call_hid_enumerate vendor product; call_hid_free_enumeration] /\
  (0 < Int32Value a0 < 65536 -> vendor = Int32Value a0) /\
  (0 < Int32Value a1 < 65536 -> product = Int32Value a1) /\
  (vendor <> 0 -> product <> 0 ->
   fst filtered = Returned (JSArray (describe <$> restricted)) /\
   (describe <$> restricted) `sublist_of` (describe <$> attached (trace w))).
Proof.
  cbn zeta. rewrite !invoke_devices. cbn [length fst snd].
  change (arg [a0; a1] 0) with a0. change (arg [a0; a1] 1) with a1.
  split; [destruct w; unfold record; cbn; rewrite <- app_assoc; reflexivity|].
  split.
  { rewrite filter_all by apply matches_nothing. reflexivity. }
  split; [destruct w; unfold record; cbn; rewrite <- app_assoc; reflexivity|].
  split; [intros Hr; unfold ushort; apply Z.mod_small; lia|].
  split; [intros Hr; unfold ushort; apply Z.mod_small; lia|].
  intros Hv Hp. split.
  - rewrite (list_filter_iff _
               (fun dev => vendor_id dev = ushort (Int32Value a0)
                           /\ product_id dev = ushort (Int32Value a1)))
      by (intros dev; apply matches_exact; assumption).
    reflexivity.
  - apply fmap_sublist, sublist_filter.
Qed.

Lemma narrow_length (wide : list Z) : String.length (HID.narrow wide) = length wide.
Proof. induction wide as [|c ws IH]; cbn; [reflexivity|rewrite IH; reflexivity]. Qed.

Lemma narrow_get (wide : list Z) :
  forall (i : nat) (c : Z),
    wide !! i = Some c ->
    String.get i (HID.narrow wide) = Some (ascii_of_N (Z.to_N (c mod 256))).
Proof.
  induction wide as [|c0 ws IH]; intros i c Hi; [discriminate|].
  destruct i as [|i]; cbn in *.
  - injection Hi as ->. reflexivity.
  - apply IH. assumption.
Qed.

Lemma to_char_default (c : Z) : HID.to_char c = "?"%char <-> c mod 256 = 63.
Proof.
  unfold HID.to_char. split.
  - intros Hq. apply (f_equal N_of_ascii) in Hq.
    rewrite N_ascii_embedding in Hq by (pose proof (Z.mod_pos_bound c 256); lia).
    cbn in Hq. lia.
  - intros ->. reflexivity.
Qed.

(** C10.  In the descriptor made from a native record, [path],
    [serialNumber], [manufacturer] and [product] are there exactly when
    the record's pointer is not null, and absent otherwise; the six
    numeric fields are always there.  A wide string is narrowed
    character by character, each character to its low byte: the
    [narrow] of line 436 is that of a stream of [char], it receives the
    wide character already converted to [char] and never produces its
    default '?'.  A '?' in the text comes only from a character whose low
    byte is 63, and the trade mark sign (8482) arrives as the double
    quote (34).  Every descriptor that [devices] returns is made this way
    from an attached device. *)
Theorem descriptor_fields_low_byte (dev : hid_device_info) :
  let d := HID.deviceInfo dev in
  let narrowed := fun wide => JSString (HID.c_str (HID.narrow wide)) in
  Get "path" d = JSString <$> path dev /\
  Get "serialNumber" d = narrowed <$> serial_number dev /\
  Get "manufacturer" d = narrowed <$> manufacturer_string dev /\
  Get "product" d = narrowed <$> product_string dev /\
  Get "vendorId" d = Some (JSNumber (Integer (vendor_id dev))) /\
  Get "productId" d = Some (JSNumber (Integer (product_id dev))) /\
  Get "release" d = Some (JSNumber (Integer (release_number dev))) /\
  Get "interface" d = Some (JSNumber (Integer (interface_number dev))) /\
  Get "usagePage" d = Some (JSNumber (Integer (usage_page dev))) /\
  Get "usage" d = Some (JSNumber (Integer (usage dev))) /\
  (forall wide,
     String.length (HID.narrow wide) = length wide /\
     forall i c,
       wide !! i = Some c ->
       String.get i (HID.narrow wide) = Some (ascii_of_N (Z.to_N (c mod 256))) /\
       (String.get i (HID.narrow wide) = Some "?"%char <-> c mod 256 = 63)) /\
  HID.narrow [8482] = String (ascii_of_N 34) EmptyString /\
  (forall args w v,
     fst (invoke HID.NAN_METHOD_devices args w) = Returned v ->
     exists devs,
       v = JSArray ((fun dev => JSObject (HID.deviceInfo dev)) <$> devs) /\
       devs `sublist_of` attached (trace w)).
Proof.
  cbn zeta. split; [|split; [|split; [|split; [|split; [|split; [|split; [|split;
    [|split; [|split; [|split; [|split]]]]]]]]]]].
  1-10: destruct dev as [[p|] vid pid [sn|] rel [ms|] [ps|] up us ifn]; reflexivity.
  - intros wide. split; [apply narrow_length|].
    intros i c Hi. rewrite (narrow_get wide i c Hi). split; [reflexivity|].
    rewrite <- to_char_default. unfold HID.to_char.
    split; [intros Hq; injection Hq as Hq; exact Hq|intros ->; reflexivity].
  - reflexivity.
  - intros args w v. rewrite invoke_devices. cbn [fst].
    destruct (length args) as [|[|[|n]]]; intros Hv; try discriminate Hv;
      injection Hv as <-; eexists; (split; [reflexivity|apply sublist_filter]).
Qed.
End EnumerationClaims.

Lemma devices_filter_witness :
  fst (invoke (HID.NAN_METHOD_devices (host := plain_host) (api := mock_device))
         [JSNumber (Integer 1133); JSNumber (Integer 50475)] opened)
  = Returned (JSArray [JSObject (HID.deviceInfo mouse)]) /\
  fst (invoke (HID.NAN_METHOD_devices (host := plain_host) (api := mock_device)) [] opened)
  = Returned (JSArray [JSObject (HID.deviceInfo mouse); JSObject (HID.deviceInfo keyboard)]).
Proof.
  destruct (devices_filter (host := plain_host) (api := mock_device)
              (JSNumber (Integer 1133)) (JSNumber (Integer 50475)) opened)
    as (_ & Hall & _ & _ & _ & Hsome).
  destruct Hsome as [Hsome _]; [vm_compute; discriminate | vm_compute; discriminate |].
  split; [exact Hsome | exact Hall].
Defined.

(** C6, the claim as it stands fails.  On the test device,
    [devices(66669, 50475)] returns the mouse, whose vendor id is 1133:
    66669 is 1133 modulo 65536.  No attached device has vendor id 66669,
    so the unfiltered answer restricted to the pair (66669, 50475) is
    empty and does not contain the filtered one. *)
Lemma devices_exact_match_counterexample :
  let describe := fun dev => JSObject (HID.deviceInfo dev) in
  let a0 := JSNumber (Integer 66669) in
  let a1 := JSNumber (Integer 50475) in
  let filtered :=
    invoke (HID.NAN_METHOD_devices (host := plain_host) (api := mock_device))
      [a0; a1] opened in
  let restricted :=
    filter (fun dev => vendor_id dev = Int32Value (host := plain_host) a0
                       /\ product_id dev = Int32Value (host := plain_host) a1)
      (attached (hidapi := mock_device) (trace opened)) in
  Int32Value (host := plain_host) a0 = 66669 /\
  Int32Value (host := plain_host) a1 = 50475 /\
  fst filtered = Returned (JSArray [describe mouse]) /\
  vendor_id mouse <> 66669 /\
  restricted = [] /\
  ~ [describe mouse] `sublist_of` (describe <$> restricted).
Proof.
  cbn zeta.
  assert (filter (fun dev => vendor_id dev = Int32Value (host := plain_host) (JSNumber (Integer 66669))
                             /\ product_id dev = Int32Value (host := plain_host) (JSNumber (Integer 50475)))
            (attached (hidapi := mock_device) (trace opened)) = []) as Hempty
    by (vm_compute; reflexivity).
  split; [vm_compute; reflexivity|].
  split; [vm_compute; reflexivity|].
  split; [vm_compute; reflexivity|].
  split; [vm_compute; discriminate|].
  split; [exact Hempty|].
  rewrite Hempty. intros Hsub. apply sublist_nil_r in Hsub. discriminate Hsub.
Qed.

Lemma descriptor_fields_low_byte_witness :
  Get "manufacturer" (HID.deviceInfo mouse)
  = Some (JSString (String.append "Logi" (String (ascii_of_N 34) EmptyString))) /\
  Get "serialNumber" (HID.deviceInfo mouse) = None /\
  Get "path" (HID.deviceInfo keyboard) = None /\
  Get "serialNumber" (HID.deviceInfo keyboard) = Some (JSString "K1") /\
  String.get 4 (HID.narrow [76; 111; 103; 105; 8482]) = Some (ascii_of_N 34).
Proof.
  pose proof (descriptor_fields_low_byte (host := plain_host) (api := mock_device) mouse)
    as (_ & Hserial & Hmanufacturer & _ & _ & _ & _ & _ & _ & _ & Hnarrow & _).
  pose proof (descriptor_fields_low_byte (host := plain_host) (api := mock_device) keyboard)
    as (Hpath & Hserial' & _).
  destruct (Hnarrow [76; 111; 103; 105; 8482]) as [_ Hget].
  destruct (Hget 4%nat 8482 eq_refl) as [Hfifth _].
  exact (conj Hmanufacturer (conj Hserial (conj Hpath (conj Hserial' Hfifth)))).
Defined.

(** ** Further properties *)

(** *** Transfers *)

Section TransferProperties.
Context {host : Host} {api : hidapi}.

Lemma live_blocks_after_transfer (c : NativeCall) (w : World) :
  live_blocks (after_transfer c w) = live_blocks w.
Proof.
  unfold live_blocks, after_transfer. cbn [heap set_heap record set_trace].
  rewrite filter_app. rewrite (filter_cons_False _ None).
  - rewrite filter_nil, app_nil_r. reflexivity.
  - intros [x Hx]. discriminate Hx.
Qed.

Lemma write_bad_element (args elems : list JSValue) (w : World) :
  arg args 0 = JSArray elems ->
  forallb IsNumber elems = false ->
  invoke HID.NAN_METHOD_write args w
  = (Raised "unexpected array element in array to send, expecting only integers",
     set_scheduled None w).
Proof.
  intros Harg Hbad. unfold invoke, HID.NAN_METHOD_write. rewrite Harg.
  cbn [HID.Array_Cast]. unfold try_catch.
  destruct w as [hh rf sc tr hp wk cl].
  destruct (negb (length args =? 1)%nat);
    cbn [when]; unfold NanThrowError;
    rewrite ?bind_modify, !bind_ret;
    rewrite (bind_Throw _ _ _ _ _ (collect_rejects elems _ Hbad));
    reflexivity.
Qed.

Lemma sendFeatureReport_bad_element (args elems : list JSValue) (w : World) :
  arg args 0 = JSArray elems ->
  forallb IsNumber elems = false ->
  let r := invoke HID.NAN_METHOD_sendFeatureReport args w in
  fst r = Crashed (Terminate "unexpected array element in array to send, expecting only integers") /\
  trace (snd r) = trace w /\
  heap (snd r) = heap w.
Proof.
  intros Harg Hbad. cbn zeta. unfold invoke, HID.NAN_METHOD_sendFeatureReport. rewrite Harg.
  cbn [HID.Array_Cast].
  destruct w as [hh rf sc tr hp wk cl].
  destruct (negb (length args =? 1)%nat);
    cbn [when]; unfold NanThrowError;
    rewrite ?bind_modify, !bind_ret;
    rewrite (bind_Throw _ _ _ _ _ (collect_rejects elems _ Hbad));
    repeat split.
Qed.

(** X1.  [write] with an array that holds an element that is no number,
    anywhere in it, raises the element error and nothing of the array is
    sent: no native call is made and no buffer is allocated, whatever
    precedes the element. *)
Theorem write_rejects_non_number (args elems : list JSValue) (w : World) :
  let r := invoke HID.NAN_METHOD_write args w in
  arg args 0 = JSArray elems ->
  forallb IsNumber elems = false ->
  fst r = Raised "unexpected array element in array to send, expecting only integers" /\
  trace (snd r) = trace w /\
  heap (snd r) = heap w.
Proof.
  cbn zeta. intros Harg Hbad. rewrite (write_bad_element args elems) by assumption.
  repeat split.
Qed.

(** X2.  The same array given to [sendFeatureReport], whose loop has no
    [catch] around it: the C++ exception leaves the method, which is the
    end of the process, and no error reaches JavaScript.  No native call
    is made. *)
Theorem sendFeatureReport_non_number_terminates (args elems : list JSValue) (w : World) :
  let r := invoke HID.NAN_METHOD_sendFeatureReport args w in
  arg args 0 = JSArray elems ->
  forallb IsNumber elems = false ->
  fst r = Crashed (Terminate "unexpected array element in array to send, expecting only integers") /\
  (forall msg, fst r <> Raised msg) /\
  trace (snd r) = trace w.
Proof.
  cbn zeta. intros Harg Hbad.
  destruct (sendFeatureReport_bad_element args elems w Harg Hbad) as (Hr & Ht & _).
  rewrite Hr. repeat split; [discriminate | exact Ht].
Qed.

(** X3.  [write] and [sendFeatureReport] never leave their transport
    buffer behind: given an array, whatever its elements, the number of
    arguments and the result of the native call, as many blocks are live
    after the call as before. *)
Theorem transfers_release_buffer (args elems : list JSValue) (w : World) :
  arg args 0 = JSArray elems ->
  live_blocks (snd (invoke HID.NAN_METHOD_write args w)) = live_blocks w /\
  live_blocks (snd (invoke HID.NAN_METHOD_sendFeatureReport args w)) = live_blocks w.
Proof.
  intros Harg. destruct (forallb IsNumber elems) eqn:Hnum.
  - rewrite (invoke_write_numbers args elems) by assumption.
    rewrite (invoke_sendFeatureReport_numbers args elems) by assumption.
    split.
    + destruct (_ <? 0); [|destruct (negb _)]; cbn [snd];
        rewrite live_blocks_after_transfer; reflexivity.
    + destruct (_ =? -1); [|destruct (negb _)]; cbn [snd];
        rewrite live_blocks_after_transfer; reflexivity.
  - rewrite (write_bad_element args elems) by assumption.
    destruct (sendFeatureReport_bad_element args elems w Harg Hnum) as (_ & _ & Hheap).
    split; [reflexivity|]. unfold live_blocks. rewrite Hheap. reflexivity.
Qed.

(** X4.  On an open handle, [sendFeatureReport(bytes)] hands the bytes
    unchanged to one [hid_send_feature_report] and answers with the number
    that call returns.  Only -1 counts as a failure (line 320): any other
    result, a negative one included, is returned as a number. *)
Theorem sendFeatureReport_returns_native_result (bytes : list Z) (w : World) (h : hid_device) :
  let len := Z.of_nat (length bytes) in
  let res := hid_send_feature_report_result (trace w) (Some h) bytes len in
  let r := invoke HID.NAN_METHOD_sendFeatureReport
             [JSArray ((fun b => JSNumber (Integer b)) <$> bytes)] w in
  _hidHandle w = Some h ->
  Forall (fun b => 0 <= b < 256) bytes ->
  trace (snd r) = trace w ++ [call_hid_send_feature_report (Some h) bytes len] /\
  (res = -1 -> fst r = Raised "could not send feature report to device") /\
  (res <> -1 -> fst r = Returned (JSNumber (Integer res))).
Proof.
  cbn zeta. intros Hopen Hbytes. rewrite <- Hopen.
  rewrite (invoke_sendFeatureReport_numbers _ ((fun b => JSNumber (Integer b)) <$> bytes))
    by (reflexivity || apply bytes_are_numbers).
  rewrite bytes_unchanged by assumption. rewrite length_fmap.
  cbn [length Nat.eqb negb].
  destruct (Z.eqb_spec (hid_send_feature_report_result (trace w) (_hidHandle w) bytes
                          (Z.of_nat (length bytes))) (-1)) as [E|E];
    cbn [fst snd]; (split; [reflexivity|]); split; intros H;
    try reflexivity; contradiction.
Qed.
End TransferProperties.

Lemma write_rejects_non_number_witness :
  let r := invoke (HID.NAN_METHOD_write (host := plain_host) (api := mock_device))
             [JSArray [JSNumber (Integer 1); JSString "2"; JSNumber (Integer 3)]] opened in
  fst r = Raised "unexpected array element in array to send, expecting only integers" /\
  trace (snd r) = [] /\
  heap (snd r) = [].
Proof.
  exact (write_rejects_non_number (host := plain_host) (api := mock_device)
           [JSArray [JSNumber (Integer 1); JSString "2"; JSNumber (Integer 3)]]
           [JSNumber (Integer 1); JSString "2"; JSNumber (Integer 3)] opened eq_refl eq_refl).
Defined.

Lemma sendFeatureReport_non_number_terminates_witness :
  let r := invoke (HID.NAN_METHOD_sendFeatureReport (host := plain_host) (api := mock_device))
             [JSArray [JSNumber (Integer 1); JSNull]] opened in
  fst r = Crashed (Terminate "unexpected array element in array to send, expecting only integers") /\
  (forall msg, fst r <> Raised msg) /\
  trace (snd r) = [].
Proof.
  exact (sendFeatureReport_non_number_terminates (host := plain_host) (api := mock_device)
           [JSArray [JSNumber (Integer 1); JSNull]] [JSNumber (Integer 1); JSNull]
           opened eq_refl eq_refl).
Defined.

Lemma transfers_release_buffer_witness :
  live_blocks (snd (invoke (HID.NAN_METHOD_write (host := plain_host) (api := broken_device))
                      [JSArray [JSNumber (Integer 1)]] opened)) = 0%nat /\
  live_blocks (snd (invoke (HID.NAN_METHOD_sendFeatureReport
                              (host := plain_host) (api := broken_device))
                      [JSArray [JSNumber (Integer 1)]] opened)) = 0%nat.
Proof.
  exact (transfers_release_buffer (host := plain_host) (api := broken_device)
           [JSArray [JSNumber (Integer 1)]] [JSNumber (Integer 1)] opened eq_refl).
Defined.

Lemma sendFeatureReport_returns_native_result_witness :
  let r := invoke (HID.NAN_METHOD_sendFeatureReport (host := plain_host) (api := mock_device))
             [JSArray [JSNumber (Integer 2); JSNumber (Integer 9)]] opened in
  trace (snd r) = [call_hid_send_feature_report (Some 1%positive) [2; 9] 2] /\
  fst r = Returned (JSNumber (Integer 2)).
Proof.
  destruct (sendFeatureReport_returns_native_result (host := plain_host) (api := mock_device)
              [2; 9] opened 1%positive eq_refl)
    as (Htrace & _ & Hres).
  { repeat constructor; lia. }
  split; [exact Htrace | apply Hres; vm_compute; discriminate].
Defined.

(** *** Feature report requests, blocking mode and enumeration *)

Section RequestProperties.
Context {host : Host} {api : hidapi}.

(** X5.  On an open handle, with two arguments and a positive size,
    [hid_get_feature_report] is given a buffer of that size whose first
    byte is the report id modulo 256.  When it returns a length [n] other
    than -1 and within the buffer, the call returns an array of exactly
    the first [n] bytes of the buffer (the bytes the device stored, when
    it stored [n] of them), none at all for a negative [n], and the buffer
    is released. *)
Theorem getFeatureReport_returns_report
    (reportId size : JSValue) (w : World) (h : hid_device) :
  let bufSize := int32 (Uint32Value size) in
  let data := <[0%nat := Uint32Value reportId mod 256]> (fresh (Z.to_nat bufSize)) in
  let answer := hid_get_feature_report_result (trace w) (Some h) data bufSize in
  let n := fst answer in
  let block := overwrite data (snd answer) in
  let r := invoke HID.NAN_METHOD_getFeatureReport [reportId; size] w in
  _hidHandle w = Some h ->
  0 < bufSize ->
  n <> -1 ->
  n <= bufSize ->
  trace (snd r) = trace w ++ [call_hid_get_feature_report (Some h) data bufSize] /\
  data !! 0%nat = Some (Uint32Value reportId mod 256) /\
  fst r = Returned (JSArray ((fun b => JSNumber (Integer b)) <$> take (Z.to_nat n) block)) /\
  length (take (Z.to_nat n) block) = Z.to_nat n /\
  (length (snd answer) = Z.to_nat n -> take (Z.to_nat n) block = snd answer) /\
  live_blocks (snd r) = live_blocks w.
Proof.
  cbn zeta. intros Hopen Hpos Hok Hfit. rewrite <- Hopen in *.
  change (Uint32Value reportId mod 256) with (uchar (Uint32Value reportId)) in *.
  rewrite (getFeatureReport_success [reportId; size]) by assumption.
  cbn [length Nat.eqb negb fst snd].
  change (arg [reportId; size] 0) with reportId.
  change (arg [reportId; size] 1) with size.
  set (bufSize := int32 (Uint32Value size)) in *.
  set (data := <[0%nat := uchar (Uint32Value reportId)]> (fresh (Z.to_nat bufSize))) in *.
  set (answer := hid_get_feature_report_result (trace w) (_hidHandle w) data bufSize) in *.
  assert (length data = Z.to_nat bufSize) as Hdata.
  { unfold data. rewrite length_insert, length_fresh. reflexivity. }
  split; [destruct w; reflexivity|].
  split; [apply list_lookup_insert_eq; rewrite length_fresh; lia|].
  split; [reflexivity|].
  split; [rewrite length_take, overwrite_length, Hdata; lia|].
  split; [|rewrite live_blocks_after_transfer; reflexivity].
  intros Hlen. unfold overwrite. rewrite take_take, Hdata.
  rewrite Nat.min_l by lia. rewrite <- Hlen. apply take_app_length.
Qed.

(** X6.  A requested size of 2^31 or more does not fit in the [int] that
    holds it (line 269): the size of the array comes out negative, the
    allocation fails, and the call ends there, before any native call. *)
Theorem getFeatureReport_huge_size (args : list JSValue) (w : World) :
  let r := invoke HID.NAN_METHOD_getFeatureReport args w in
  2 ^ 31 <= Uint32Value (arg args 1) ->
  int32 (Uint32Value (arg args 1)) < 0 /\
  fst r = Crashed BadAlloc /\
  trace (snd r) = trace w /\
  heap (snd r) = heap w.
Proof.
  cbn zeta. intros Hbig.
  assert (Uint32Value (arg args 1) < 2 ^ 32) as Hlt.
  { unfold Uint32Value, ToUint32. destruct (ToNumber (arg args 1)); try lia.
    unfold uint32. apply Z.mod_pos_bound. lia. }
  assert (int32 (Uint32Value (arg args 1)) = Uint32Value (arg args 1) - 2 ^ 32) as E.
  { unfold int32.
    replace (Uint32Value (arg args 1) + 2 ^ 31)
      with (Uint32Value (arg args 1) - 2 ^ 31 + 1 * 2 ^ 32) by lia.
    rewrite Z_mod_plus_full. rewrite Z.mod_small by lia. lia. }
  split; [lia|].
  unfold invoke, HID.NAN_METHOD_getFeatureReport. rewrite E.
  destruct w as [hh rf sc tr hp wk cl].
  destruct (negb (length args =? 2)%nat || (Uint32Value (arg args 1) =? 0));
    cbn [when]; unfold NanThrowError; rewrite ?bind_modify, ?bind_ret;
    unfold bind, new_array;
    (destruct (Z.ltb_spec (Uint32Value (arg args 1) - 2 ^ 32) 0) as [_|Hge]; [|lia]);
    repeat split.
Qed.

(** X7.  [setNonBlocking] with one argument never turns the argument down:
    whatever it is, [hid_set_nonblocking] is called once with the 32-bit
    integer it converts to (0 for [undefined], 1 for [true]), and the call
    raises the mode error exactly when the native result is negative and
    returns [undefined] otherwise. *)
Theorem setNonBlocking_coerces_flag (flag : JSValue) (w : World) :
  let res := hid_set_nonblocking_result (trace w) (_hidHandle w) (Int32Value flag) in
  let r := invoke HID.NAN_METHOD_setNonBlocking [flag] w in
  trace (snd r) = trace w ++ [call_hid_set_nonblocking (_hidHandle w) (Int32Value flag)] /\
  (fst r = Raised "Error setting non-blocking mode." <-> res < 0) /\
  (fst r = Returned JSUndefined <-> 0 <= res) /\
  Int32Value JSUndefined = 0 /\
  Int32Value (JSBoolean true) = 1.
Proof.
  cbn zeta. rewrite invoke_setNonBlocking.
  change (arg [flag] 0) with flag. cbn [length Nat.eqb negb].
  destruct (Z.ltb_spec (hid_set_nonblocking_result (trace w) (_hidHandle w)
                          (Int32Value flag)) 0) as [Hneg|Hpos];
    cbn [fst snd]; (split; [destruct w; reflexivity|]);
    repeat split; intros H; try reflexivity; try lia; discriminate H.
Qed.

(** X8.  Whatever its arguments, [devices] makes exactly two native calls:
    one [hid_enumerate] and the [hid_free_enumeration] that goes with it.
    With a number of arguments other than 0 or 2 the error is raised, but
    the enumeration has been made all the same, for vendor 0 and
    product 0. *)
Theorem devices_always_frees (args : list JSValue) (w : World) :
  let r := invoke HID.NAN_METHOD_devices args w in
  (exists vendor product,
     trace (snd r)
     = trace w ++ [call_hid_enumerate vendor product; call_hid_free_enumeration]) /\
  (length args <> 0%nat -> length args <> 2%nat ->
   trace (snd r) = trace w ++ [call_hid_enumerate 0 0; call_hid_free_enumeration] /\
   fst r = Raised "unexpected number of arguments to HID.devices() call, expecting either no arguments or vendor and product ID").
Proof.
  cbn zeta. rewrite invoke_devices. cbn [fst snd]. split.
  - eexists _, _. destruct w. unfold record. cbn. rewrite <- app_assoc. reflexivity.
  - intros H0 H2. destruct (length args) as [|[|[|n]]]; try contradiction;
      (split; [destruct w; unfold record; cbn; rewrite <- app_assoc; reflexivity
              | reflexivity]).
Qed.
End RequestProperties.

Lemma getFeatureReport_returns_report_witness :
  let r := invoke (HID.NAN_METHOD_getFeatureReport (host := plain_host) (api := mock_device))
             [JSNumber (Integer 261); JSNumber (Integer 4)] opened in
  trace (snd r) = [call_hid_get_feature_report (Some 1%positive) [5; 205; 205; 205] 4] /\
  fst r = Returned (JSArray [JSNumber (Integer 5); JSNumber (Integer 7); JSNumber (Integer 9)]).
Proof.
  destruct (getFeatureReport_returns_report (host := plain_host) (api := mock_device)
              (JSNumber (Integer 261)) (JSNumber (Integer 4)) opened 1%positive eq_refl)
    as (Htrace & _ & Hres & _).
  - reflexivity.
  - vm_compute. discriminate.
  - vm_compute. discriminate.
  - split; [exact Htrace | exact Hres].
Defined.

Lemma getFeatureReport_huge_size_witness :
  let r := invoke (HID.NAN_METHOD_getFeatureReport (host := plain_host) (api := mock_device))
             [JSNumber (Integer 1); JSNumber (Integer 2147483648)] opened in
  fst r = Crashed BadAlloc /\ trace (snd r) = [].
Proof.
  destruct (getFeatureReport_huge_size (host := plain_host) (api := mock_device)
              [JSNumber (Integer 1); JSNumber (Integer 2147483648)] opened)
    as (_ & Hres & Htrace & _).
  - vm_compute. discriminate.
  - split; [exact Hres | exact Htrace].
Defined.

Lemma devices_always_frees_witness :
  let r := invoke (HID.NAN_METHOD_devices (host := plain_host) (api := mock_device))
             [JSNumber (Integer 1133)] opened in
  trace (snd r) = [call_hid_enumerate 0 0; call_hid_free_enumeration] /\
  fst r = Raised "unexpected number of arguments to HID.devices() call, expecting either no arguments or vendor and product ID".
Proof.
  apply (proj2 (devices_always_frees (host := plain_host) (api := mock_device)
                  [JSNumber (Integer 1133)] opened)); cbn; lia.
Defined.

(** *** Reads in flight *)

Section ReadProperties.
Context {host : Host} {api : hidapi}.

(** One turn of the loop on a queue whose oldest request holds a function. *)
Lemma turn_spec (cb : nat) (rest : list ReceiveIOCB) (w : World) :
  let answer := hid_read_result (trace w) (_hidHandle w) 1024 in
  let buf := overwrite (fresh HID.READ_BUFFER_SIZE) (snd answer) in
  work w = request (JSFunction cb) :: rest ->
  fst answer <= 1024 ->
  HID.uv_run_once w
  = Ok tt
      (set_calls
         (calls w ++
            [(JSFunction cb,
              if fst answer <? 0
              then [JSError "could not read from HID device"; JSUndefined]
              else [JSUndefined; JSBuffer (take (Z.to_nat (fst answer)) buf)])])
         (set_refs (pred (refs w))
            (record (call_hid_read (_hidHandle w) 1024) (set_work rest w)))).
Proof.
  cbn zeta. intros Hwork Hfit.
  destruct w as [hh rf sc tr hp wk cl]. cbn in Hwork. subst wk.
  unfold HID.uv_run_once, request. rewrite bind_gets. world.
  rewrite bind_modify.
  erewrite bind_Ok; [|apply recvAsync_spec; exact Hfit].
  world. cbn [trace _hidHandle] in Hfit.
  unfold HID.recvAsyncDone, HID.readResultsToJSCallbackArguments, HID.Unref, HID.Call.
  destruct (fst (hid_read_result tr hh 1024) <? 0);
    cbn [_callback _error _data IsFunction message _message];
    rewrite !bind_modify; reflexivity.
Qed.

(** X10.  A call of [read] that is turned down is submitted all the same.
    With any number of arguments other than one, or a first argument that
    is no function, the argument error is raised, yet the handle has been
    referenced and the request queued.  When the first argument is a
    function, a later turn of the loop reads from the device and invokes
    it, although the caller was told the call had failed. *)
Theorem read_turned_down_still_submitted (args : list JSValue) (w : World) :
  let r := invoke HID.NAN_METHOD_read args w in
  length args <> 1%nat \/ IsFunction (arg args 0) = false ->
  fst r = Raised "need one callback function argument in read" /\
  work (snd r) = work w ++ [request (arg args 0)] /\
  refs (snd r) = S (refs w) /\
  (forall cb,
     arg args 0 = JSFunction cb ->
     work w = [] ->
     fst (hid_read_result (trace w) (_hidHandle w) 1024) <= 1024 ->
     exists w' argv,
       HID.uv_run_once (snd r) = Ok tt w' /\
       calls w' = calls w ++ [(JSFunction cb, argv)] /\
       length argv = 2%nat /\
       trace w' = trace w ++ [call_hid_read (_hidHandle w) 1024]).
Proof.
  cbn zeta. intros Hbad.
  assert (negb (length args =? 1)%nat || negb (IsFunction (arg args 0)) = true) as Hguard.
  { destruct Hbad as [Hlen|Hfun].
    - destruct (Nat.eqb_spec (length args) 1); [contradiction|reflexivity].
    - rewrite Hfun. apply orb_true_r. }
  assert (invoke HID.NAN_METHOD_read args w
          = (Raised "need one callback function argument in read",
             set_work (work w ++ [request (arg args 0)])
               (set_refs (S (refs w)) (set_scheduled None w)))) as E.
  { unfold invoke, HID.NAN_METHOD_read. rewrite Hguard.
    destruct w as [hh rf sc tr hp wk cl]. reflexivity. }
  rewrite E. cbn [fst snd]. repeat split.
  intros cb Hcb Hidle Hfit. rewrite Hcb, Hidle. cbn [app].
  destruct w as [hh rf sc tr hp wk cl]. cbn [trace _hidHandle] in Hfit.
  eexists _, _. split; [apply turn_spec; [reflexivity | exact Hfit]|].
  world.
  split; [reflexivity|]. split; [destruct (_ <? 0); reflexivity | reflexivity].
Qed.

End ReadProperties.

Lemma read_turned_down_still_submitted_witness :
  let r := invoke HID.NAN_METHOD_read [JSFunction 7; JSNumber (Integer 0)] opened in
  fst r = Raised "need one callback function argument in read" /\
  refs (snd r) = 1%nat /\
  exists w' argv,
    HID.uv_run_once (host := plain_host) (api := mock_device) (snd r) = Ok tt w' /\
    calls w' = [(JSFunction 7, argv)].
Proof.
  destruct (read_turned_down_still_submitted (host := plain_host) (api := mock_device)
              [JSFunction 7; JSNumber (Integer 0)] opened)
    as (Hraised & _ & Hrefs & Hlater).
  { left. cbn. lia. }
  split; [exact Hraised|]. split; [exact Hrefs|].
  destruct (Hlater 7%nat eq_refl eq_refl) as (w' & argv & Hrun & Hcalls & _).
  { vm_compute. discriminate. }
  exists w', argv. split; [exact Hrun | exact Hcalls].
Defined.

(** *** Opening *)

Section OpenProperties.
Context {host : Host} {open : opener}.

Lemma hex_decodes (n : Z) : 0 <= n -> HexString.to_Z (String.append "0x" (hex n)) = n.
Proof.
  intros Hn. destruct n as [|p|p]; [reflexivity | | lia].
  exact (HexString.to_Z_of_Z (Z.pos p)).
Qed.

Lemma ushort_range (z : Z) : 0 <= ushort z < 65536.
Proof. unfold ushort. apply Z.mod_pos_bound. lia. Qed.

(** X12.  A failed open leaves nothing behind and says what was asked
    for.  When [hid_open] finds no device, constructing by ids raises
    "cannot open device with vendor id 0x.. and product id 0x..", where
    both ids are printed in hexadecimal as the 16-bit values the
    constructor was given, the 32-bit integer values of the arguments
    modulo 2^16; when [hid_open_path] finds none, constructing by path
    raises "cannot open device with path " followed by the path.  In both
    cases the receiver wraps no handle: the world is left as it was. *)
Theorem failed_open_raises (This vendor product pathname : JSValue) (w : World) :
  let vendorId := ushort (Int32Value vendor) in
  let productId := ushort (Int32Value product) in
  let by_ids := invoke (HIDNew.NAN_METHOD_New true This) [vendor; product] w in
  let by_path := invoke (HIDNew.NAN_METHOD_New true This) [pathname] w in
  (hid_open_result (trace w) vendorId productId None = None ->
   fst by_ids
   = Raised (String.concat ""
               ["cannot open device with vendor id 0x"; hex vendorId;
                " and product id 0x"; hex productId]) /\
   HexString.to_Z (String.append "0x" (hex vendorId)) = Int32Value vendor mod 65536 /\
   HexString.to_Z (String.append "0x" (hex productId)) = Int32Value product mod 65536 /\
   snd by_ids = set_scheduled None w) /\
  (hid_open_path_result (trace w) (utf8_string pathname) = None ->
   fst by_path
   = Raised (String.append "cannot open device with path " (utf8_string pathname)) /\
   snd by_path = set_scheduled None w).
Proof.
  cbn zeta. split; intros Hnone.
  - assert (invoke (HIDNew.NAN_METHOD_New true This) [vendor; product] w
            = (Raised (String.concat ""
                         ["cannot open device with vendor id 0x";
                          hex (ushort (Int32Value vendor));
                          " and product id 0x"; hex (ushort (Int32Value product))]),
               set_scheduled None w)) as E.
    { unfold invoke, HIDNew.NAN_METHOD_New, HIDNew.HID_from_ids.
      change (arg [vendor; product] 0) with vendor.
      change (arg [vendor; product] 1) with product.
      cbn [length Nat.eqb Nat.ltb Nat.leb negb when].
      rewrite !bind_ret. unfold try_catch, bind.
      cbn [trace set_scheduled]. rewrite Hnone.
      destruct w; reflexivity. }
    rewrite E. cbn [fst snd].
    split; [reflexivity|]. split; [|split; [|reflexivity]];
      apply hex_decodes, ushort_range.
  - assert (invoke (HIDNew.NAN_METHOD_New true This) [pathname] w
            = (Raised (String.append "cannot open device with path " (utf8_string pathname)),
               set_scheduled None w)) as E.
    { unfold invoke, HIDNew.NAN_METHOD_New, HIDNew.HID_from_path.
      change (arg [pathname] 0) with pathname.
      cbn [length Nat.eqb Nat.ltb Nat.leb negb when].
      rewrite !bind_ret. unfold try_catch, bind.
      cbn [trace set_scheduled]. rewrite Hnone.
      destruct w; reflexivity. }
    rewrite E. split; reflexivity.
Qed.

(** X13.  What [close] releases is what the constructor opened.  When
    [hid_open] answers with a device for the two ids (taken modulo 2^16)
    and the serial number, if one is given, the constructor returns the
    receiver, which now wraps that device and is referenced by nothing;
    a [close] after it calls [hid_close] on that very device, once, and
    leaves the handle null.  The same holds for a device opened by path. *)
Theorem opened_device_is_the_one_closed
    (This vendor product : JSValue) (more : list JSValue) (w : World) (h : hid_device) :
  let serial := match more with [] => None | s :: _ => Some (ucs2_string s) end in
  let r := invoke (HIDNew.NAN_METHOD_New true This) (vendor :: product :: more) w in
  let closed := invoke HID.NAN_METHOD_close [] (snd r) in
  hid_open_result (trace w) (Int32Value vendor mod 65536) (Int32Value product mod 65536) serial
  = Some h ->
  fst r = Returned This /\
  _hidHandle (snd r) = Some h /\
  refs (snd r) = 0%nat /\
  trace (snd r) = trace w /\
  fst closed = Returned JSUndefined /\
  trace (snd closed) = trace w ++ [call_hid_close h] /\
  _hidHandle (snd closed) = None.
Proof.
  cbn zeta. intros Hsome.
  assert (invoke (HIDNew.NAN_METHOD_New true This) (vendor :: product :: more) w
          = (Returned This, set_refs 0 (set_hidHandle (Some h) (set_scheduled None w)))) as E.
  { unfold invoke, HIDNew.NAN_METHOD_New, HIDNew.HID_from_ids, HIDNew.Wrap, ushort.
    change (arg (vendor :: product :: more) 0) with vendor.
    change (arg (vendor :: product :: more) 1) with product.
    assert ((if (2 <? length (vendor :: product :: more))%nat
             then Some (ucs2_string (arg (vendor :: product :: more) 2)) else None)
            = match more with [] => None | s :: _ => Some (ucs2_string s) end) as ->.
    { destruct more; reflexivity. }
    cbn [length Nat.eqb Nat.ltb Nat.leb negb when].
    rewrite !bind_ret. unfold try_catch, bind.
    cbn [trace set_scheduled]. rewrite Hsome.
    destruct w; reflexivity. }
  rewrite E. cbn [fst snd].
  destruct w as [hh rf sc tr hp wk cl]. repeat split.
Qed.

(** X14.  [new HID()] without arguments is turned down and opens a device
    all the same.  The argument error is scheduled, the method goes on and
    calls [hid_open] for vendor 0, product 0 and no serial number.  When
    that finds a device, the error raised is the argument error and the
    receiver, which the caller never gets, wraps the open device; when it
    finds none, the error raised is the one of the failed open. *)
Theorem constructor_without_arguments_opens (This : JSValue) (w : World) :
  let r := invoke (HIDNew.NAN_METHOD_New true This) [] w in
  (forall h,
     hid_open_result (trace w) 0 0 None = Some h ->
     fst r = Raised "HID constructor requires at least one argument" /\
     _hidHandle (snd r) = Some h) /\
  (hid_open_result (trace w) 0 0 None = None ->
   fst r = Raised "cannot open device with vendor id 0x0 and product id 0x0" /\
   _hidHandle (snd r) = _hidHandle w).
Proof.
  cbn zeta.
  unfold invoke, HIDNew.NAN_METHOD_New, HIDNew.HID_from_ids, HIDNew.Wrap.
  change (ushort (Int32Value (arg [] 0))) with 0.
  change (ushort (Int32Value (arg [] 1))) with 0.
  cbn [length Nat.eqb Nat.ltb Nat.leb negb when].
  rewrite bind_ret. unfold NanThrowError. rewrite bind_modify.
  unfold try_catch, bind. cbn [trace set_scheduled].
  split; [intros h Hopen | intros Hopen]; rewrite Hopen; destruct w; split; reflexivity.
Qed.
End OpenProperties.

Lemma failed_open_raises_witness :
  fst (invoke (HIDNew.NAN_METHOD_New (host := plain_host) (open := nothing_to_open)
                 true (JSObject []))
         [JSNumber (Integer 66669); JSNumber (Integer 50475)] unopened)
  = Raised "cannot open device with vendor id 0x46d and product id 0xc52b" /\
  fst (invoke (HIDNew.NAN_METHOD_New (host := plain_host) (open := nothing_to_open)
                 true (JSObject []))
         [JSString "/dev/hidraw9"] unopened)
  = Raised "cannot open device with path /dev/hidraw9".
Proof.
  destruct (failed_open_raises (host := plain_host) (open := nothing_to_open)
              (JSObject []) (JSNumber (Integer 66669)) (JSNumber (Integer 50475))
              (JSString "/dev/hidraw9") unopened)
    as [Hids Hpath].
  split; [exact (proj1 (Hids eq_refl)) | exact (proj1 (Hpath eq_refl))].
Defined.

Lemma opened_device_is_the_one_closed_witness :
  let r := invoke (HIDNew.NAN_METHOD_New (host := plain_host) (open := mouse_to_open)
                     true (JSObject []))
             [JSNumber (Integer 1133); JSNumber (Integer 50475)] unopened in
  fst r = Returned (JSObject []) /\
  _hidHandle (snd r) = Some 5%positive /\
  trace (snd (invoke HID.NAN_METHOD_close [] (snd r))) = [call_hid_close 5%positive].
Proof.
  destruct (opened_device_is_the_one_closed (host := plain_host) (open := mouse_to_open)
              (JSObject []) (JSNumber (Integer 1133)) (JSNumber (Integer 50475)) []
              unopened 5%positive eq_refl)
    as (Hret & Hhandle & _ & _ & _ & Htrace & _).
  split; [exact Hret|]. split; [exact Hhandle | exact Htrace].
Defined.

Lemma constructor_without_arguments_opens_witness :
  let r := invoke (HIDNew.NAN_METHOD_New (host := plain_host) (open := mouse_to_open)
                     true (JSObject [])) [] unopened in
  fst r = Raised "HID constructor requires at least one argument" /\
  _hidHandle (snd r) = Some 5%positive.
Proof.
  exact (proj1 (constructor_without_arguments_opens
                  (host := plain_host) (open := mouse_to_open) (JSObject []) unopened)
           5%positive eq_refl).
Defined.

(** *** A round trip through a loopback transport *)

Section RoundTrip.
Context {host : Host}.

Lemma uchar_byte (z : Z) : 0 <= z < 256 -> uchar z = z.
Proof. intros Hz. unfold uchar. apply Z.mod_small. assumption. Qed.

Lemma int32_small (z : Z) : - 2 ^ 31 <= z < 2 ^ 31 -> int32 z = z.
Proof. intros Hz. unfold int32. rewrite Z.mod_small by lia. lia. Qed.

Lemma Uint32Value_Integer (z : Z) :
  0 <= z < 2 ^ 32 -> Uint32Value (JSNumber (Integer z)) = z.
Proof.
  intros Hz. unfold Uint32Value, ToNumber, ToUint32, Integer, uint32.
  rewrite truncate_inject_Z. apply Z.mod_small. assumption.
Qed.

Lemma last_report_snoc (id : Z) (t : list NativeCall) (h : option hid_device)
    (data : list Z) (len : Z) :
  head data = Some id ->
  last_report id (t ++ [call_hid_send_feature_report h data len]) = Some data.
Proof.
  intros Hhead. induction t as [|c t IH]; cbn.
  - destruct (decide (head data = Some id)); [reflexivity|contradiction].
  - rewrite IH. reflexivity.
Qed.

(** X15.  What [sendFeatureReport] sends, [getFeatureReport] gets back.
    On the loopback transport, for a report of at least one byte (the
    report id first) and a request, under the same id, for at least as
    many bytes as were sent, the array returned holds exactly the bytes
    sent, in order: nothing is lost or altered on the way into the native
    buffer or on the way out of it. *)
Theorem feature_report_round_trip (id : Z) (rest : list Z) (size : Z) (w : World) :
  let payload := id :: rest in
  let numbers := fun bytes => (fun b => JSNumber (Integer b)) <$> bytes in
  let sent := invoke (HID.NAN_METHOD_sendFeatureReport (api := loopback))
                [JSArray (numbers payload)] w in
  let got := invoke (HID.NAN_METHOD_getFeatureReport (api := loopback))
               [JSNumber (Integer id); JSNumber (Integer size)] (snd sent) in
  Forall (fun b => 0 <= b < 256) payload ->
  Z.of_nat (length payload) <= size < 2 ^ 31 ->
  fst sent = Returned (JSNumber (Integer (Z.of_nat (length payload)))) /\
  fst got = Returned (JSArray (numbers payload)).
Proof.
  cbn zeta. intros Hbytes Hsize.
  assert (0 <= id < 256) as Hid by (inversion Hbytes; assumption).
  set (payload := id :: rest) in *.
  set (L := Z.of_nat (length payload)) in *.
  assert (1 <= L) as HL by (unfold L, payload; cbn [length]; lia).
  rewrite (invoke_sendFeatureReport_numbers (api := loopback) _
             ((fun b => JSNumber (Integer b)) <$> payload))
    by (reflexivity || apply bytes_are_numbers).
  rewrite bytes_unchanged by assumption. rewrite length_fmap. fold L.
  cbn [length Nat.eqb negb hid_send_feature_report_result loopback].
  destruct (Z.eqb_spec L (-1)) as [E|_]; [lia|]. cbn [fst snd].
  split; [reflexivity|].
  set (w1 := after_transfer _ _).
  assert (trace w1 = trace w ++ [call_hid_send_feature_report (_hidHandle w) payload L]) as Ht
    by (destruct w; reflexivity).
  assert (Uint32Value (JSNumber (Integer size)) = size) as Esize
    by (apply Uint32Value_Integer; lia).
  assert (Uint32Value (JSNumber (Integer id)) = id) as Eid
    by (apply Uint32Value_Integer; lia).
  pose proof (getFeatureReport_success (api := loopback)
                [JSNumber (Integer id); JSNumber (Integer size)] w1) as Hget.
  cbn zeta in Hget.
  change (arg [JSNumber (Integer id); JSNumber (Integer size)] 0)
    with (JSNumber (Integer id)) in Hget.
  change (arg [JSNumber (Integer id); JSNumber (Integer size)] 1)
    with (JSNumber (Integer size)) in Hget.
  rewrite Esize, Eid, (int32_small size), (uchar_byte id) in Hget by lia.
  set (data := <[0%nat := id]> (fresh (Z.to_nat size))) in *.
  assert (length data = Z.to_nat size) as Hdata
    by (unfold data; rewrite length_insert, length_fresh; reflexivity).
  assert (head data = Some id) as Hhead.
  { unfold data. destruct (fresh (Z.to_nat size)) eqn:Hf; [|reflexivity].
    apply (f_equal length) in Hf. rewrite length_fresh in Hf. cbn in Hf. lia. }
  assert (hid_get_feature_report_result (hidapi := loopback) (trace w1) (_hidHandle w1)
            data size = (L, payload)) as Hanswer.
  { cbn [hid_get_feature_report_result loopback]. rewrite Hhead, Ht.
    rewrite (last_report_snoc id _ _ payload) by reflexivity.
    fold L. rewrite Z.min_r by lia. unfold L. rewrite Nat2Z.id, firstn_all.
    reflexivity. }
  rewrite Hanswer in Hget. cbn [fst snd length Nat.eqb negb] in Hget.
  rewrite Hget by lia. cbn [fst]. do 3 f_equal.
  unfold overwrite, L. rewrite Nat2Z.id, take_take, Hdata.
  rewrite Nat.min_l by lia. apply take_app_length.
Qed.



End RoundTrip.

Lemma feature_report_round_trip_witness :
  let sent := invoke (HID.NAN_METHOD_sendFeatureReport (host := plain_host) (api := loopback))
                [JSArray [JSNumber (Integer 2); JSNumber (Integer 9); JSNumber (Integer 7)]]
                opened in
  fst (invoke (HID.NAN_METHOD_getFeatureReport (host := plain_host) (api := loopback))
         [JSNumber (Integer 2); JSNumber (Integer 8)] (snd sent))
  = Returned (JSArray [JSNumber (Integer 2); JSNumber (Integer 9); JSNumber (Integer 7)]).
Proof.
  refine (proj2 (feature_report_round_trip (host := plain_host) 2 [9; 7] 8 opened _ _)).
  - repeat constructor; lia.
  - cbn. lia.
Defined.


(** *** An answer longer than the buffer *)

Section Overlong.
Context {host : Host} {api : hidapi}.


End Overlong.

